(** * VoxelEngine asset tools: a shallow embedding and its properties

    The repository is a set of five independent Python scripts:
    - [Tools/generate_textures.py]: solid / dual-colour 16x16 tiles and the atlas;
    - [Tools/generate_crack_sprites.py]: ten crack overlay sprites from a seeded
      random walk;
    - [Tools/assign_textures.py]: reads GUIDs from [.meta] sidecar files and
      patches them into block [.asset] files with regular expressions;
    - [generate_block_assets.py], [update_block_registry.py]: two one-off
      scripts that write serialized text from hardcoded tables.

    Python integers are [Z], Python [str] is [string], dicts used as maps are
    [gmap]s, the [visited] set is a [gset], PIL images are row-major pixel
    buffers, and code that can raise returns a [result]. *)

From Stdlib Require Import ZArith Lia List String Ascii QArith Qround Sorted.
From stdpp Require Import gmap strings list pretty.
From Equations Require Import Equations.

Local Open Scope string_scope.
Local Open Scope list_scope.
Local Open Scope Z_scope.

(** ** Exceptions *)

Inductive exn :=
| ValueError
| IndexError
| KeyError
| FileNotFoundError
| Unsupported.

Inductive result (A : Type) :=
| Ok (a : A)
| Raise (e : exn).
Arguments Ok {A} a.
Arguments Raise {A} e.

Definition rbind {A B} (m : result A) (f : A → result B) : result B :=
  match m with
  | Ok a => f a
  | Raise e => Raise e
  end.

Global Instance result_ret : MRet result := @Ok.
Global Instance result_bind : MBind result := λ A B f m, rbind m f.

(** [for v in l: st = body v st], stopping at the first exception. *)
Fixpoint rfor {A St} (l : list A) (body : A → St → result St) (st : St)
  : result St :=
  match l with
  | [] => Ok st
  | v :: l' => st' ← body v st; rfor l' body st'
  end.

(** [range(n)] *)
Definition range (n : Z) : list Z := seqZ 0 n.

(** [l[i]]: a negative index counts from the end, an index outside the list
    raises [IndexError]. *)
Definition item {A} (l : list A) (i : Z) : result A :=
  let j := if i <? 0 then i + Z.of_nat (length l) else i in
  if j <? 0 then Raise IndexError
  else match l !! Z.to_nat j with
       | Some v => Ok v
       | None => Raise IndexError
       end.

(** ** PIL images *)

(** An RGBA pixel and an RGB colour triple. *)
Definition rgba := (Z * Z * Z * Z)%type.
Definition rgb := (Z * Z * Z)%type.

(** [color + (255,)] *)
Definition with_alpha (c : rgb) (a : Z) : rgba :=
  let '(r, g, b) := c in (r, g, b, a).

Definition alpha (p : rgba) : Z := snd p.

(** A PIL image of mode RGBA: its size and its pixel buffer, row after row;
    the pixel at [(x, y)] is stored at offset [y * width + x]. *)
Record image := Image {
  img_w : Z;
  img_h : Z;
  img_px : list rgba
}.

(** [Image.new("RGBA", (w, h), fill)] *)
Definition Image_new (w h : Z) (fill : rgba) : image :=
  Image w h (replicate (Z.to_nat (w * h)) fill).

Definition in_image (img : image) (x y : Z) : bool :=
  (0 <=? x) && (x <? img_w img) && (0 <=? y) && (y <? img_h img).

Definition offset (img : image) (x y : Z) : nat :=
  Z.to_nat (y * img_w img + x).

(** [img.putpixel((x, y), c)]; outside the image PIL raises [IndexError]. *)
Definition putpixel (img : image) (x y : Z) (c : rgba) : result image :=
  if in_image img x y
  then Ok (Image (img_w img) (img_h img) (<[offset img x y := c]> (img_px img)))
  else Raise IndexError.

(** [img.getpixel((x, y))] *)
Definition getpixel (img : image) (x y : Z) : result rgba :=
  if in_image img x y
  then match img_px img !! offset img x y with
       | Some c => Ok c
       | None => Raise IndexError
       end
  else Raise IndexError.

(** [dst.paste(src, (ax, ay))] for two RGBA images and no mask: every pixel
    of [src] is copied, alpha included, to the box whose upper left corner is
    [(ax, ay)]; the part of the box that falls outside [dst] is clipped. *)
Definition paste_pixel (src : image) (ax ay dx dy : Z) (dst : image) : image :=
  match getpixel src dx dy with
  | Ok c =>
      match putpixel dst (ax + dx) (ay + dy) c with
      | Ok dst' => dst'
      | Raise _ => dst
      end
  | Raise _ => dst
  end.

(** One row of the box: the inner loop over the columns [dxs]. *)
Definition paste_row (src : image) (ax ay dy : Z) (dxs : list Z) (dst : image)
  : image :=
  foldl (λ d' dx, paste_pixel src ax ay dx dy d') dst dxs.

Definition paste (dst src : image) (ax ay : Z) : image :=
  foldl (λ d dy, paste_row src ax ay dy (range (img_w src)) d)
        dst (range (img_h src)).

(** The buffer of a well-formed image has one entry per pixel. *)
Definition image_wf (img : image) : Prop :=
  0 ≤ img_w img ∧ 0 ≤ img_h img
  ∧ length (img_px img) = Z.to_nat (img_w img * img_h img).

(** ** Tools/generate_textures.py *)

Definition ATLAS_SIZE : Z := 256.
Definition TILE_SIZE : Z := 16.
Definition TILES_PER_ROW : Z := 16.

(** An entry of the [TEXTURES] table: a dict with the keys ["index"],
    ["suffix"] and either ["color"] or both ["color1"] and ["color2"]; a key
    that the dict does not have is [None] here. *)
Record texture := Texture {
  tex_index : Z;
  tex_suffix : string;
  tex_color : option rgb;
  tex_color1 : option rgb;
  tex_color2 : option rgb
}.

Definition solid (i : Z) (s : string) (c : rgb) : texture :=
  Texture i s (Some c) None None.
Definition dual (i : Z) (s : string) (c1 c2 : rgb) : texture :=
  Texture i s None (Some c1) (Some c2).

Definition TEXTURES : list texture := [
  solid 0 "air" (200, 200, 200);
  solid 1 "grass_top" (76, 153, 0);
  solid 2 "dirt" (139, 90, 43);
  solid 3 "stone" (136, 136, 136);
  solid 4 "wood_side" (160, 110, 50);
  solid 5 "leaves" (34, 120, 34);
  solid 6 "sand" (219, 211, 160);
  solid 7 "water" (30, 100, 200);
  solid 8 "glass" (200, 230, 255);
  solid 9 "cobblestone" (120, 120, 120);
  solid 10 "planks" (180, 140, 80);
  solid 11 "brick" (170, 80, 60);
  solid 12 "gravel" (140, 130, 125);
  solid 13 "iron" (200, 200, 200);
  solid 14 "gold" (255, 215, 0);
  solid 15 "diamond" (80, 220, 220);
  solid 16 "coal" (50, 50, 50);
  solid 17 "obsidian" (20, 15, 30);
  solid 18 "snow" (240, 240, 255);
  solid 19 "ice" (170, 210, 240);
  solid 20 "clay" (160, 165, 175);
  solid 21 "sandstone_top" (220, 205, 155);
  solid 22 "wool" (235, 235, 235);
  solid 23 "bedrock" (85, 85, 85);
  solid 24 "torch" (255, 200, 50);
  solid 25 "flower" (255, 80, 80);
  dual 26 "grass_side" (76, 153, 0) (139, 90, 43);
  solid 27 "wood_top" (140, 100, 45);
  solid 28 "sandstone_side" (195, 180, 130);
  solid 29 "sandstone_bottom" (200, 190, 150);
  dual 30 "snow_side" (240, 240, 255) (139, 90, 43)
].

(** The two nested loops [for x in range(TILE_SIZE): for y in
    range(TILE_SIZE): tile.putpixel((x, y), paint x y)]. *)
Definition fill_tile (paint : Z → Z → rgba) (tile : image) : result image :=
  rfor (range TILE_SIZE)
       (λ x t, rfor (range TILE_SIZE) (λ y t', putpixel t' x y (paint x y)) t)
       tile.

(** [create_tile(index, suffix, color=None, color1=None, color2=None)].
    A colour triple is a non-empty tuple, hence truthy whenever it is given. *)
Definition create_tile (index : Z) (suffix : string)
    (color color1 color2 : option rgb) : result image :=
  let tile := Image_new TILE_SIZE TILE_SIZE (0, 0, 0, 0) in
  match color with
  | Some c => fill_tile (λ _ _, with_alpha c 255) tile
  | None =>
      match color1, color2 with
      | Some c1, Some c2 =>
          fill_tile (λ _ y, if y <? TILE_SIZE `div` 2
                            then with_alpha c1 255 else with_alpha c2 255) tile
      | _, _ => Ok tile
      end
  end.

(** The tile that [generate_textures] builds for a table entry:
    [texture["color2"]] and [texture["color"]] raise [KeyError] when the key
    is missing. *)
Definition tile_of (t : texture) : result image :=
  match tex_color1 t with
  | Some c1 =>
      match tex_color2 t with
      | Some c2 => create_tile (tex_index t) (tex_suffix t) None (Some c1) (Some c2)
      | None => Raise KeyError
      end
  | None =>
      match tex_color t with
      | Some c => create_tile (tex_index t) (tex_suffix t) (Some c) None None
      | None => Raise KeyError
      end
  end.

Definition atlas_x (index : Z) : Z := (index `mod` TILES_PER_ROW) * TILE_SIZE.
Definition atlas_y (index : Z) : Z :=
  (ATLAS_SIZE - TILE_SIZE) - (index `div` TILES_PER_ROW) * TILE_SIZE.

(** The square of the atlas that belongs to a tile index. *)
Definition in_region (n x y : Z) : Prop :=
  atlas_x n ≤ x < atlas_x n + TILE_SIZE ∧ atlas_y n ≤ y < atlas_y n + TILE_SIZE.

(** Every entry of the table has either a single colour or two. *)
Definition texture_kind (t : texture) : Prop :=
  (is_Some (tex_color t) ∧ tex_color1 t = None ∧ tex_color2 t = None)
  ∨ (tex_color t = None ∧ is_Some (tex_color1 t) ∧ is_Some (tex_color2 t)).

Definition tile_filename (t : texture) : string :=
  "tile_" +:+ pretty (tex_index t) +:+ "_" +:+ tex_suffix t +:+ ".png".

(** The state of [generate_textures]: the atlas under construction and the
    individual tiles saved so far, in the order of the [save] calls. *)
Record textures_out := TexturesOut {
  block_atlas : image;
  saved_tiles : list (string * image)
}.

Definition place_texture (t : texture) (st : textures_out) : result textures_out :=
  tile ← tile_of t;
  Ok (TexturesOut
        (paste (block_atlas st) tile (atlas_x (tex_index t)) (atlas_y (tex_index t)))
        (saved_tiles st ++ [(tile_filename t, tile)])).

Definition generate_textures : result textures_out :=
  rfor TEXTURES place_texture
       (TexturesOut (Image_new ATLAS_SIZE ATLAS_SIZE (0, 0, 0, 0)) []).

(** ** Python's [random] module

    The module keeps one hidden generator state.  [random.seed(n)] replaces
    it by a state that depends on [n] alone, and every draw of the scripts
    goes through [Random._randbelow(n)], which returns an integer below [n]
    and advances the state.  The generator itself (the Mersenne Twister) is
    left abstract; [rng_lawful] is the one property of it that is used. *)

Class PyRandom := {
  rng_state : Type;
  rng_seed : Z → rng_state;
  randbelow : Z → rng_state → Z * rng_state
}.

Definition rng_lawful (R : PyRandom) : Prop :=
  ∀ n s, 0 < n → 0 ≤ (randbelow n s).1 < n.

(** A small generator to run the model with: a linear congruential
    generator whose draws are reduced modulo the bound. *)
Definition lcg_next (s : Z) : Z := (s * 1103515245 + 12345) `mod` 2147483648.

Definition lcg_random : PyRandom := {|
  rng_state := Z;
  rng_seed := λ n, n `mod` 2147483648;
  randbelow := λ n s, ((lcg_next s `div` 65536) `mod` n, lcg_next s)
|}.

(** Code that draws random numbers and may raise. *)
Definition M {R : PyRandom} (A : Type) : Type :=
  rng_state → result (A * rng_state).

Definition M_unit {R : PyRandom} {A} (a : A) : M A := λ s, Ok (a, s).
Definition M_raise {R : PyRandom} {A} (e : exn) : M A := λ _, Raise e.
Definition M_then {R : PyRandom} {A B} (m : M A) (f : A → M B) : M B :=
  λ s, match m s with
       | Ok (a, s') => f a s'
       | Raise e => Raise e
       end.
Definition M_lift {R : PyRandom} {A} (r : result A) : M A :=
  λ s, match r with Ok a => Ok (a, s) | Raise e => Raise e end.

Global Instance M_ret {R : PyRandom} : MRet M := @M_unit R.
Global Instance M_bind {R : PyRandom} : MBind M := λ A B f m, M_then m f.

Section Random.
Context {R : PyRandom}.

(** [for v in l: st = body v st] *)
Fixpoint mfor {A St} (l : list A) (body : A → St → M St) (st : St) : M St :=
  match l with
  | [] => mret st
  | v :: l' => st' ← body v st; mfor l' body st'
  end.

(** [random.seed(n)] *)
Definition seed (n : Z) : M unit := λ _, Ok (tt, rng_seed n).

(** [random.randint(a, b)] is [randrange(a, b + 1)]: it raises
    [ValueError] on an empty range and returns [a + _randbelow(b - a + 1)]
    otherwise. *)
Definition randint (a b : Z) : M Z :=
  if b <? a then M_raise ValueError
  else λ s, let '(k, s') := randbelow (b - a + 1) s in Ok (a + k, s').

(** [random.choice(seq)] is [seq[_randbelow(len(seq))]]; an empty sequence
    raises [IndexError]. *)
Definition choice {A} (l : list A) : M A :=
  match l with
  | [] => M_raise IndexError
  | _ :: _ =>
      λ s, let '(k, s') := randbelow (Z.of_nat (length l)) s in
           match l !! Z.to_nat k with
           | Some v => Ok (v, s')
           | None => Raise IndexError
           end
  end.

(** [x[i], x[j] = x[j], x[i]] *)
Definition swap {A} (i j : nat) (x : list A) : result (list A) :=
  match x !! i, x !! j with
  | Some xi, Some xj => Ok (<[j := xi]> (<[i := xj]> x))
  | _, _ => Raise IndexError
  end.

(** [random.shuffle(x)]:
    [for i in reversed(range(1, len(x))): j = randbelow(i + 1); swap]. *)
Definition shuffle {A} (x : list A) : M (list A) :=
  mfor (reverse (seqZ 1 (Z.of_nat (length x) - 1)))
       (λ i x', j ← (λ s, Ok (randbelow (i + 1) s)) : M Z;
                M_lift (swap (Z.to_nat i) (Z.to_nat j) x'))
       x.
End Random.

(** ** Tools/generate_crack_sprites.py *)

Definition pixel := (Z * Z)%type.

(** The two containers that [generate_full_crack_pattern] fills together. *)
Record trail := Trail {
  visited : gset pixel;
  ordered_pixels : list pixel
}.

(** [if p not in visited: visited.add(p); ordered_pixels.append(p)] *)
Definition visit (p : pixel) (t : trail) : trail :=
  if decide (p ∈ visited t) then t
  else Trail ({[p]} ∪ visited t) (ordered_pixels t ++ [p]).

(** [max(0, min(hi - 1, v))] *)
Definition clamp (hi v : Z) : Z := Z.max 0 (Z.min (hi - 1) v).

(** [[(px, py) for px in range(width) for py in range(height)]] *)
Definition all_pixels (width height : Z) : list pixel :=
  px ← range width; (λ py, (px, py)) <$> range height.

(** [for p in all_pixels: if p not in visited: ordered_pixels.append(p)];
    [visited] is not extended by this loop. *)
Definition fill_remaining (ps : list pixel) (t : trail) : trail :=
  foldl (λ t' p, if decide (p ∈ visited t') then t'
                 else Trail (visited t') (ordered_pixels t' ++ [p]))
        t ps.

Section CrackPattern.
Context {R : PyRandom}.

(** One round of [for _ in range(4)]: draw an edge, then a point on it. *)
Definition pick_origin (width height : Z) (origins : list pixel)
  : M (list pixel) :=
  side ← randint 0 3;
  if side =? 0 then
    v ← randint 0 (width - 1); mret (origins ++ [(v, 0)])
  else if side =? 1 then
    v ← randint 0 (width - 1); mret (origins ++ [(v, height - 1)])
  else if side =? 2 then
    v ← randint 0 (height - 1); mret (origins ++ [(0, v)])
  else
    v ← randint 0 (height - 1); mret (origins ++ [(width - 1, v)]).

(** One round of [for step in range(walk_length)], on the walker's
    position and the trail. *)
Definition walk_step (width height : Z) (step : Z) (st : pixel * trail)
  : M (pixel * trail) :=
  let '((x, y), t) := st in
  let t := visit (x, y) t in
  dx ← choice [-1; -1; 0; 0; 1; 1; 1];
  dy ← choice [-1; -1; 0; 0; 1; 1; 1];
  dx ← (if (dx =? 0) && (dy =? 0) then choice [-1; 1] else mret dx);
  let x := clamp width (x + dx) in
  let y := clamp height (y + dy) in
  if (0 <? step) && (step `mod` 12 =? 0) then
    cx ← choice [-2; -1; 1; 2];
    cy ← choice [-2; -1; 1; 2];
    let bx := clamp width (x + cx) in
    let by' := clamp height (y + cy) in
    mret ((x, y), visit (bx, by') t)
  else
    mret ((x, y), t).

(** One round of [for ox, oy in origins]. *)
Definition walk_from (width height : Z) (origin : pixel) (t : trail)
  : M trail :=
  let walk_length := (width * height) `div` 2 in
  st ← mfor (range walk_length) (walk_step width height) (origin, t);
  mret st.2.

Definition generate_full_crack_pattern (width height seed_value : Z)
  : M (list pixel) :=
  _ ← seed seed_value;
  origins ← mfor (range 4) (λ _, pick_origin width height) [];
  t ← mfor origins (walk_from width height) (Trail ∅ []);
  shuffled ← shuffle (all_pixels width height);
  mret (ordered_pixels (fill_remaining shuffled t)).
End CrackPattern.

(** The fractions of the tile that the ten stages cover.  The source
    multiplies them, as binary floating point numbers, by [total_pixels] and
    truncates with [int]; for 256, a power of two, the product is exact, and
    no decimal fraction of the list is closer than a fifth to a change of the
    integer part except 0.50, which is a binary fraction itself; so the
    truncation is the integer part of the exact rational product. *)
Definition stage_percentages : list Q :=
  [0.06; 0.10; 0.15; 0.21; 0.28; 0.35; 0.42; 0.50; 0.58; 0.65]%Q.

Definition stage_coverage (total_pixels : Z) : list Z :=
  (λ pct, Qfloor (inject_Z total_pixels * pct)) <$> stage_percentages.

Definition crack_alpha (stage : Z) : Z := Z.min 255 (120 + stage * 15).

Definition crack_filename (stage : Z) : string :=
  "crack_stage_" +:+ pretty stage +:+ ".png".

(** The body of [for stage in range(10)] up to [img.save]: the file name and
    the image that is saved. *)
Definition draw_stage (width height : Z) (pattern : list pixel)
    (coverage : list Z) (stage : Z) : result (string * image) :=
  let img := Image_new width height (0, 0, 0, 0) in
  num_pixels ← item coverage stage;
  img ← rfor (range (Z.min num_pixels (Z.of_nat (length pattern))))
             (λ i img', '(x, y) ← item pattern i;
                        putpixel img' x y (0, 0, 0, crack_alpha stage))
             img;
  Ok (crack_filename stage, img).

(** [img.getpixel((cx, cy))[3] > 0] *)
Definition is_crack (img : image) (p : pixel) : bool :=
  match getpixel img p.1 p.2 with
  | Ok c => 0 <? alpha c
  | Raise _ => false
  end.

(** The pixels that [actual_opaque] counts. *)
Definition crack_pixels (img : image) : list pixel :=
  filter (λ p, is_crack img p = true) (all_pixels (img_w img) (img_h img)).

Definition actual_opaque (img : image) : Z :=
  Z.of_nat (length (crack_pixels img)).

Section CrackSprites.
Context {R : PyRandom}.

(** [generate_crack_sprites]: the files it saves, in order. *)
Definition generate_crack_sprites : M (list (string * image)) :=
  let width := 16 in
  let height := 16 in
  let total_pixels := width * height in
  pattern ← generate_full_crack_pattern width height 42;
  M_lift (rfor (range 10)
               (λ stage sprites,
                  sprite ← draw_stage width height pattern
                                      (stage_coverage total_pixels) stage;
                  Ok (sprites ++ [sprite]))
               []).
End CrackSprites.

(** ** Python strings

    A [str] is a [string]; its characters are the code points below 256. *)

Definition LF : ascii := ascii_of_nat 10.
Definition nl : string := String LF EmptyString.

(** [c.isspace()] on the code points below 256. *)
Definition py_isspace (c : ascii) : bool :=
  let n := nat_of_ascii c in
  ((9 <=? n) && (n <=? 13) || (28 <=? n) && (n <=? 32)
   || (n =? 133) || (n =? 160))%nat.

(** [s.lstrip()], [s.rstrip()], [s.strip()] *)
Fixpoint lstrip (s : string) : string :=
  match s with
  | EmptyString => EmptyString
  | String c s' => if py_isspace c then lstrip s' else s
  end.

Fixpoint rstrip (s : string) : string :=
  match s with
  | EmptyString => EmptyString
  | String c s' =>
      match rstrip s' with
      | EmptyString => if py_isspace c then EmptyString else String c EmptyString
      | r => String c r
      end
  end.

Definition strip (s : string) : string := lstrip (rstrip s).

(** [Some r] when [s = p + r], that is when [s.startswith(p)]. *)
Fixpoint strip_prefix (p s : string) : option string :=
  match p with
  | EmptyString => Some s
  | String a p' =>
      match s with
      | String b s' => if Ascii.eqb a b then strip_prefix p' s' else None
      | EmptyString => None
      end
  end.

Definition startswith (s p : string) : bool :=
  match strip_prefix p s with Some _ => true | None => false end.

Definition inspect {A} (a : A) : {b : A | a = b} := exist _ a eq_refl.

Lemma strip_prefix_length p s r :
  strip_prefix p s = Some r →
  String.length s = (String.length p + String.length r)%nat.
Proof.
  revert s; induction p as [|a p IH]; intros s; simpl.
  - by intros [= <-].
  - destruct s as [|b s]; [done|].
    destruct (Ascii.eqb a b); [|done]. intros Hr%IH. simpl. lia.
Qed.

(** The scan of [s.split(sep)] for a separator [String a sep]: [cur] is the
    piece under construction. *)
Equations? split_go (a : ascii) (sep cur s : string) : list string
  by wf (String.length s) lt :=
split_go a sep cur EmptyString := [cur];
split_go a sep cur (String c s')
  with inspect (strip_prefix (String a sep) (String c s')) := {
  | exist _ (Some rest) H => cur :: split_go a sep EmptyString rest
  | exist _ None _ => split_go a sep (cur +:+ String c EmptyString) s' }.
Proof.
  pose proof (strip_prefix_length (String a sep) (String c s') rest H).
  simpl in *. lia.
Qed.

(** [s.split(sep)]; an empty separator raises [ValueError]. *)
Definition py_split (s sep : string) : result (list string) :=
  match sep with
  | EmptyString => Raise ValueError
  | String a sep' => Ok (split_go a sep' EmptyString s)
  end.

(** The lines of a text as [for line in f] and [f.readlines()] produce them:
    every line keeps its line feed, the last one may lack it. *)
Fixpoint readlines (s : string) : list string :=
  match s with
  | EmptyString => []
  | String c s' =>
      if Ascii.eqb c LF then String c EmptyString :: readlines s'
      else match readlines s' with
           | [] => [String c EmptyString]
           | l :: ls => String c l :: ls
           end
  end.

(** [f.writelines(lines)] writes the concatenation. *)
Definition joinlines (ls : list string) : string :=
  foldr String.append EmptyString ls.

(** [posixpath.join] *)
Fixpoint endswith_slash (s : string) : bool :=
  match s with
  | EmptyString => false
  | String c EmptyString => Ascii.eqb c "/"
  | String _ s' => endswith_slash s'
  end.

Definition path_join2 (path b : string) : string :=
  if startswith b "/" then b
  else if String.eqb path EmptyString || endswith_slash path then path +:+ b
  else path +:+ "/" +:+ b.

Definition path_join (a : string) (ps : list string) : string :=
  foldl path_join2 a ps.

(** ** The file system and the console

    A path names a regular text file or nothing; a file's content is the
    text that Python's text mode presents.  [events] records what a script
    did, in order. *)

Inductive event :=
| Print (msg : string)
| OpenRead (path : string)
| OpenWrite (path : string).

Record world := World {
  files : gmap string string;
  events : list event
}.

(** A script step: a result or an exception, and the world it leaves. *)
Definition IO (A : Type) : Type := world → result A * world.

Definition IO_unit {A} (a : A) : IO A := λ w, (Ok a, w).
Definition IO_raise {A} (e : exn) : IO A := λ w, (Raise e, w).
Definition IO_then {A B} (m : IO A) (f : A → IO B) : IO B :=
  λ w, match m w with
       | (Ok a, w') => f a w'
       | (Raise e, w') => (Raise e, w')
       end.
Definition IO_lift {A} (r : result A) : IO A := λ w, (r, w).

Global Instance IO_ret : MRet IO := @IO_unit.
Global Instance IO_bind : MBind IO := λ A B f m, IO_then m f.

Fixpoint iofor {A St} (l : list A) (body : A → St → IO St) (st : St) : IO St :=
  match l with
  | [] => mret st
  | v :: l' => st' ← body v st; iofor l' body st'
  end.

Definition log (e : event) (w : world) : world :=
  World (files w) (events w ++ [e]).

(** [print(msg)] *)
Definition print (msg : string) : IO unit := λ w, (Ok tt, log (Print msg) w).

(** [os.path.exists(path)] *)
Definition path_exists (path : string) : IO bool :=
  λ w, (Ok (bool_decide (is_Some (files w !! path))), w).

(** [with open(path, "r") as f: f.read()] *)
Definition read_text (path : string) : IO string :=
  λ w, match files w !! path with
       | Some text => (Ok text, log (OpenRead path) w)
       | None => (Raise FileNotFoundError, w)
       end.

(** [with open(path, "w") as f: f.write(text)] *)
Definition write_text (path text : string) : IO unit :=
  λ w, (Ok tt, World (<[path := text]> (files w))
                     (events w ++ [OpenWrite path])).

(** [open(path, "w")] truncates or creates the file; [f.write(text)]
    appends to what the file holds. *)
Definition open_write (path : string) : IO unit :=
  λ w, (Ok tt, World (<[path := EmptyString]> (files w))
                     (events w ++ [OpenWrite path])).

Definition fwrite (path text : string) : IO unit :=
  λ w, (Ok tt, World (<[path := default EmptyString (files w !! path) +:+ text]>
                        (files w))
                     (events w)).

(** ** Tools/assign_textures.py *)

(** [TILE_FILES]; a dict is iterated in the order of its literal. *)
Definition TILE_FILES : list (Z * string) := [
  (0, "tile_0_air.png");
  (1, "tile_1_grass_top.png");
  (2, "tile_2_dirt.png");
  (3, "tile_3_stone.png");
  (4, "tile_4_wood_side.png");
  (5, "tile_5_leaves.png");
  (6, "tile_6_sand.png");
  (7, "tile_7_water.png");
  (8, "tile_8_glass.png");
  (9, "tile_9_cobblestone.png");
  (10, "tile_10_planks.png");
  (11, "tile_11_brick.png");
  (12, "tile_12_gravel.png");
  (13, "tile_13_iron.png");
  (14, "tile_14_gold.png");
  (15, "tile_15_diamond.png");
  (16, "tile_16_coal.png");
  (17, "tile_17_obsidian.png");
  (18, "tile_18_snow.png");
  (19, "tile_19_ice.png");
  (20, "tile_20_clay.png");
  (21, "tile_21_sandstone_top.png");
  (22, "tile_22_wool.png");
  (23, "tile_23_bedrock.png");
  (24, "tile_24_torch.png");
  (25, "tile_25_flower.png");
  (26, "tile_26_grass_side.png");
  (27, "tile_27_wood_top.png");
  (28, "tile_28_sandstone_side.png");
  (29, "tile_29_sandstone_bottom.png");
  (30, "tile_30_snow_side.png")
].

(** Block name -> (topTileIndex, sideTileIndex, bottomTileIndex) *)
Definition BLOCK_TILE_MAP : gmap string (Z * Z * Z) := list_to_map [
  ("Block_Air", (0, 0, 0));
  ("Block_Grass", (1, 26, 2));
  ("Block_Dirt", (2, 2, 2));
  ("Block_Stone", (3, 3, 3));
  ("Block_Wood", (27, 4, 27));
  ("Block_Leaves", (5, 5, 5));
  ("Block_Sand", (6, 6, 6));
  ("Block_Water", (7, 7, 7));
  ("Block_Glass", (8, 8, 8));
  ("Block_Cobblestone", (9, 9, 9));
  ("Block_Planks", (10, 10, 10));
  ("Block_Brick", (11, 11, 11));
  ("Block_Gravel", (12, 12, 12));
  ("Block_Iron", (13, 13, 13));
  ("Block_Gold", (14, 14, 14));
  ("Block_Diamond", (15, 15, 15));
  ("Block_Coal", (16, 16, 16));
  ("Block_Obsidian", (17, 17, 17));
  ("Block_Snow", (18, 30, 2));
  ("Block_Ice", (19, 19, 19));
  ("Block_Clay", (20, 20, 20));
  ("Block_Sandstone", (21, 28, 29));
  ("Block_Wool", (22, 22, 22));
  ("Block_Bedrock", (23, 23, 23));
  ("Block_Torch", (24, 24, 24));
  ("Block_Flower", (25, 25, 25))
].

(** [line.strip().startswith("guid:")] *)
Definition is_guid_line (line : string) : bool :=
  startswith (strip line) "guid:".

(** [line.strip().split("guid:")[1].strip()] *)
Definition guid_of_line (line : string) : result string :=
  parts ← py_split (strip line) "guid:";
  part ← item parts 1;
  Ok (strip part).

(** The loop [for line in f] of [get_guid_from_meta] and the [raise] after
    it. *)
Fixpoint scan_meta (lines : list string) : result string :=
  match lines with
  | [] => Raise ValueError
  | line :: lines' =>
      if is_guid_line line then guid_of_line line else scan_meta lines'
  end.

Definition get_guid_from_meta (texture_path : string) : IO string :=
  let meta_path := texture_path +:+ ".meta" in
  found ← path_exists meta_path;
  if negb found then IO_raise FileNotFoundError
  else
    text ← read_text meta_path;
    IO_lift (scan_meta (readlines text)).

Section AssignTextures.
(** [os.path.dirname(__file__)] *)
Variable script_dir : string.

Definition TEXTURES_DIR : string :=
  path_join script_dir
    [".."; "Assets"; "_Project"; "Art"; "Textures"; "Blocks"; "Individual"].

(** One round of [for tile_idx, filename in TILE_FILES.items()]. *)
Definition add_guid (entry : Z * string) (guid_map : gmap Z string)
  : IO (gmap Z string) :=
  let '(tile_idx, filename) := entry in
  let tex_path := path_join TEXTURES_DIR [filename] in
  found ← path_exists tex_path;
  if found : bool then
    guid ← get_guid_from_meta tex_path;
    mret (<[tile_idx := guid]> guid_map)
  else
    _ ← print ("  WARNING: " +:+ filename +:+ " not found, skipping tile "
               +:+ pretty tile_idx);
    mret guid_map.

Definition build_guid_map : IO (gmap Z string) :=
  iofor TILE_FILES add_guid ∅.
End AssignTextures.

Definition make_tex_ref (guid : string) : string :=
  "{fileID: 2800000, guid: " +:+ guid +:+ ", type: 3}".

(** *** The regular expressions of [update_asset]

    All three patterns are [(key)\{fileID: [^}]*\}] for a key without
    metacharacters.  Such a pattern matches at a position when the text there
    starts with [key] and ["{fileID: "] and a closing brace follows later;
    the match then ends at the first closing brace, since [[^}]*] cannot
    cross one and must be followed by one. *)

(** The text after the first ["}"], if there is one. *)
Fixpoint after_close (s : string) : option string :=
  match s with
  | EmptyString => None
  | String c s' => if Ascii.eqb c "}" then Some s' else after_close s'
  end.

(** A match at the start of [s]: the text that follows the match. *)
Definition match_tex (key s : string) : option string :=
  rest ← strip_prefix (key +:+ "{fileID: ") s; after_close rest.

Lemma after_close_length s r :
  after_close s = Some r → (String.length r < String.length s)%nat.
Proof.
  induction s as [|c s IH]; simpl; [done|].
  destruct (Ascii.eqb c "}").
  - intros [= <-]. lia.
  - intros Hr%IH. lia.
Qed.

Lemma match_tex_length key s r :
  match_tex key s = Some r → (String.length r < String.length s)%nat.
Proof.
  unfold match_tex. destruct (strip_prefix _ s) as [t|] eqn:Ht; [|done].
  simpl. intros Hr%after_close_length.
  apply strip_prefix_length in Ht. lia.
Qed.

(** [re.sub] scans the text from the left: where the pattern matches, the
    match is replaced and the scan resumes after it; elsewhere the character
    is kept.  [repl] is what the template contributes after the group
    reference [\1], which stands for [key]. *)
Equations? sub_tex (key repl s : string) : string
  by wf (String.length s) lt :=
sub_tex key repl EmptyString := EmptyString;
sub_tex key repl (String c s')
  with inspect (match_tex key (String c s')) := {
  | exist _ (Some rest) H => key +:+ repl +:+ sub_tex key repl rest
  | exist _ None _ => String c (sub_tex key repl s') }.
Proof.
  apply match_tex_length in H. simpl in H. lia.
Qed.

Fixpoint has_backslash (s : string) : bool :=
  match s with
  | EmptyString => false
  | String c s' => Ascii.eqb c "\" || has_backslash s'
  end.

(** [re.sub(r"(key)" + tex_pattern, r"\1" + ref, content)].  A backslash in
    [ref] would start an escape sequence of the template; templates with
    escapes other than the leading [\1] are not interpreted here. *)
Definition re_sub_tex (key ref content : string) : result string :=
  if has_backslash ref then Raise Unsupported
  else Ok (sub_tex key ref content).

(** The three substitutions of [update_asset], in order. *)
Definition patch_textures (top_guid side_guid bottom_guid content : string)
  : result string :=
  content ← re_sub_tex "topTexture: " (make_tex_ref top_guid) content;
  content ← re_sub_tex "sideTexture: " (make_tex_ref side_guid) content;
  re_sub_tex "bottomTexture: " (make_tex_ref bottom_guid) content.

(** Truth value of a [guid_map.get(idx)]: [None] and the empty string are
    false. *)
Definition truthy (g : option string) : bool :=
  match g with
  | Some s => negb (String.eqb s EmptyString)
  | None => false
  end.

(** [print(msg); return False] *)
Definition skip_asset (msg : string) : IO bool :=
  _ ← print msg; mret false.

Definition update_asset (asset_path block_name : string)
    (guid_map : gmap Z string) : IO bool :=
  match BLOCK_TILE_MAP !! block_name with
  | None => skip_asset ("  SKIP: " +:+ block_name +:+ " not in tile map")
  | Some (top_idx, side_idx, bottom_idx) =>
      if String.eqb block_name "Block_Air" then
        skip_asset ("  SKIP: " +:+ block_name +:+ " (Air, no textures)")
      else
        let top_guid := guid_map !! top_idx in
        let side_guid := guid_map !! side_idx in
        let bottom_guid := guid_map !! bottom_idx in
        if negb (truthy top_guid && truthy side_guid && truthy bottom_guid) then
          skip_asset ("  ERROR: Missing GUID for " +:+ block_name
                      +:+ " (top=" +:+ pretty top_idx
                      +:+ ", side=" +:+ pretty side_idx
                      +:+ ", bottom=" +:+ pretty bottom_idx +:+ ")")
        else
          content ← read_text asset_path;
          content ← IO_lift (patch_textures (default EmptyString top_guid)
                                            (default EmptyString side_guid)
                                            (default EmptyString bottom_guid)
                                            content);
          _ ← open_write asset_path;
          _ ← fwrite asset_path content;
          mret true
  end.

(** ** Python values and [str.format]

    The values that the block table holds: strings, integers, and
    non-negative float literals with one fractional digit, which [str] prints
    back as they are written. *)

Inductive pyval :=
| PyStr (s : string)
| PyInt (z : Z)
| PyFloat (whole tenth : Z).

(** [str(v)] *)
Definition py_str (v : pyval) : string :=
  match v with
  | PyStr s => s
  | PyInt z => pretty z
  | PyFloat w t => pretty w +:+ "." +:+ pretty t
  end.

(** [d[key]] for a dict given by its items. *)
Fixpoint dict_get (d : list (string * pyval)) (key : string) : result pyval :=
  match d with
  | [] => Raise KeyError
  | (k, v) :: d' => if String.eqb k key then Ok v else dict_get d' key
  end.

Definition is_digit (c : ascii) : bool :=
  let n := nat_of_ascii c in ((48 <=? n) && (n <=? 57))%nat.

Fixpoint all_digits (s : string) : bool :=
  match s with
  | EmptyString => true
  | String c s' => is_digit c && all_digits s'
  end.

(** What a replacement field [{name}] stands for when [format] is called with
    the keyword arguments [kw]: an
    empty or numeric name is a positional argument, and there is none. *)
Definition format_field (kw : list (string * pyval)) (name : string)
  : result string :=
  if all_digits name then Raise IndexError
  else v ← dict_get kw name; Ok (py_str v).

(** Where the scan of a template stands: in literal text, in the name of a
    replacement field, or past the name, in what follows a [!], [:], [.] or
    [[] of the field. *)
Inductive format_state :=
| InText
| InName (name : string)
| InSpec (name : string).

(** [template.format] with the keyword arguments [kw]: the doubled braces
    stand for one brace, [{name}] for the value of [name].  A field is read
    up to its closing brace and its name is looked up first, so that a missing
    name raises [KeyError] whatever follows it in the field; what a
    conversion, a format specification, an attribute or an index would then
    do is not interpreted. *)
Fixpoint format_go (kw : list (string * pyval)) (st : format_state)
    (t : string) : result string :=
  match st, t with
  | InText, EmptyString => Ok EmptyString
  | InText, String "{" (String "{" t') =>
      r ← format_go kw InText t'; Ok (String "{" r)
  | InText, String "{" t' => format_go kw (InName EmptyString) t'
  | InText, String "}" (String "}" t') =>
      r ← format_go kw InText t'; Ok (String "}" r)
  | InText, String "}" _ => Raise ValueError
  | InText, String c t' => r ← format_go kw InText t'; Ok (String c r)
  | InName _, EmptyString => Raise ValueError
  | InName name, String "}" t' =>
      v ← format_field kw name;
      r ← format_go kw InText t';
      Ok (v +:+ r)
  | InName name, String c t' =>
      if Ascii.eqb c "{" then Raise ValueError
      else if existsb (Ascii.eqb c) ["!"; ":"; "."; "["]%char
      then format_go kw (InSpec name) t'
      else format_go kw (InName (name +:+ String c EmptyString)) t'
  | InSpec _, EmptyString => Raise ValueError
  | InSpec name, String "}" _ =>
      _ ← format_field kw name; Raise Unsupported
  | InSpec name, String c t' =>
      if Ascii.eqb c "{" then Raise Unsupported
      else format_go kw (InSpec name) t'
  end.

Definition py_format (template : string) (kw : list (string * pyval))
  : result string :=
  format_go kw InText template.

(** ** generate_block_assets.py *)

(** A block-type record: an entry of the [blocks] table. *)
Record block := Block {
  b_name : string;
  b_id : Z;
  b_solid : Z;
  b_transparent : Z;
  b_top : Z;
  b_side : Z;
  b_bottom : Z;
  b_emission : Z;
  b_hardness : pyval;
  b_tool : Z
}.

(** The dict that the table holds for the record. *)
Definition block_dict (b : block) : list (string * pyval) := [
  ("name", PyStr (b_name b));
  ("id", PyInt (b_id b));
  ("solid", PyInt (b_solid b));
  ("transparent", PyInt (b_transparent b));
  ("top", PyInt (b_top b));
  ("side", PyInt (b_side b));
  ("bottom", PyInt (b_bottom b));
  ("emission", PyInt (b_emission b));
  ("hardness", b_hardness b);
  ("tool", PyInt (b_tool b))
].

Definition blocks : list block := [
  Block "Water" 7 0 1 7 7 7 0 (PyInt (-1)) 0;
  Block "Glass" 8 1 1 8 8 8 0 (PyFloat 0 3) 0;
  Block "Cobblestone" 9 1 0 9 9 9 0 (PyInt 2) 1;
  Block "Planks" 10 1 0 10 10 10 0 (PyInt 2) 2;
  Block "Brick" 11 1 0 11 11 11 0 (PyInt 2) 1;
  Block "Gravel" 12 1 0 12 12 12 0 (PyFloat 0 6) 3;
  Block "Iron" 13 1 0 13 13 13 0 (PyInt 3) 1;
  Block "Gold" 14 1 0 14 14 14 0 (PyInt 3) 1;
  Block "Diamond" 15 1 0 15 15 15 0 (PyInt 3) 1;
  Block "Coal" 16 1 0 16 16 16 0 (PyInt 3) 1;
  Block "Obsidian" 17 1 0 17 17 17 0 (PyInt 50) 1;
  Block "Snow" 18 1 0 18 30 2 0 (PyFloat 0 2) 3;
  Block "Ice" 19 1 1 19 19 19 0 (PyFloat 0 5) 1;
  Block "Clay" 20 1 0 20 20 20 0 (PyFloat 0 6) 3;
  Block "Sandstone" 21 1 0 21 28 29 0 (PyFloat 0 8) 1;
  Block "Wool" 22 1 0 22 22 22 0 (PyFloat 0 8) 4;
  Block "Bedrock" 23 1 0 23 23 23 0 (PyInt (-1)) 0;
  Block "Flower" 25 0 1 25 25 25 0 (PyInt 0) 0
].

Definition guids : list string := [
  "eff441eceee9439f8613d1e04c109cae";
  "2aa2682e1cd347f8b3f9affc1a32dc25";
  "a701f2bca8524314b208b0eaffe9e1c4";
  "f39ec1c49cfb4542a0a885f5b5c0057b";
  "e67e1b5a0f6349c6945bdd58af67aad3";
  "eecf3916c73040eb8546768495f78fe5";
  "3ee3f8b22ec74ba1b5dea97c41ed81be";
  "98b7267a79f8422aa09ca13b42873f5e";
  "bfc180317d244c1ba08ab96c58509873";
  "78fd64fb53aa40049238a35329e1d7f5";
  "c2fd5fabea1f4a9496dc8c73febdee2d";
  "4a94192e85ca4d43833e986cf12ee765";
  "d6b2dd0856e34daa960ac73fd0622e1d";
  "e7f7515632e842268d3cfee73e0e07d4";
  "da7244822b9c494586136099424a76b0";
  "3fbd913a87cc46278e77dc942e14822a";
  "ed5724392cfb459c9935bf0478fa7c82";
  "76481855fa67425d92fcdaac1cf01e37"
].

Definition base_template : string :=
"%YAML 1.1
%TAG !u! tag:unity3d.com,2011:
--- !u!114 &11400000
MonoBehaviour:
  m_ObjectHideFlags: 0
  m_CorrespondingSourceObject: {fileID: 0}
  m_PrefabInstance: {fileID: 0}
  m_PrefabAsset: {fileID: 0}
  m_GameObject: {fileID: 0}
  m_Enabled: 1
  m_EditorHideFlags: 0
  m_Script: {{fileID: 11500000, guid: 0fed08878a38d04459f1f2881b12ea1e, type: 3}}
  m_Name: Block_{name}
  m_EditorClassIdentifier: 
  blockId: {id}
  blockName: {name}
  isSolid: {solid}
  isTransparent: {transparent}
  topTileIndex: {top}
  bottomTileIndex: {bottom}
  sideTileIndex: {side}
  topTexture: {{fileID: 0}}
  sideTexture: {{fileID: 0}}
  bottomTexture: {{fileID: 0}}
  lightEmission: {emission}
  hardness: {hardness}
  preferredToolType: {tool}
".

Definition base_meta_template : string :=
"fileFormatVersion: 2
guid: {guid}
NativeFormatImporter:
  externalObjects: {{}}
  mainObjectFileID: 11400000
  userData: 
  assetBundleName: 
  assetBundleVariant: ".


Definition asset_path_of (b : block) : string :=
  "/Users/ljs0218/VoxelEngine/Assets/_Project/Data/Blocks/Block_"
  +:+ b_name b +:+ ".asset".

(** One round of [for block, guid in zip(blocks, guids)]. *)
Definition write_block (entry : block * string) (_ : unit) : IO unit :=
  let '(b, guid) := entry in
  let asset_path := asset_path_of b in
  let meta_path := asset_path +:+ ".meta" in
  _ ← open_write asset_path;
  text ← IO_lift (py_format base_template (block_dict b));
  _ ← fwrite asset_path (text +:+ nl);
  _ ← open_write meta_path;
  meta ← IO_lift (py_format base_meta_template [("guid", PyStr guid)]);
  fwrite meta_path (meta +:+ nl).

Definition generate_block_assets : IO unit :=
  _ ← iofor (zip blocks guids) write_block tt;
  print "Generated all block assets and meta files.".

(** ** update_block_registry.py *)

Definition existing_guids : list string := [
  "bd31c31dfd0b4314691f16ea7b3fe355";
  "84f7b997588994941b26694bd273b8ab";
  "4de6099ccf668d241a3a91a599636089";
  "93e418a9880d5ad408f0f91355a37cd1";
  "cba1318f6db55f1408a4c1f0f8469889";
  "1fd60414ba05e0249889168eb881c194";
  "377ff86f72d4c7b44928c0b9dfc995ad"
].

Definition new_block_guids : list string := [
  "eff441eceee9439f8613d1e04c109cae";
  "2aa2682e1cd347f8b3f9affc1a32dc25";
  "a701f2bca8524314b208b0eaffe9e1c4";
  "f39ec1c49cfb4542a0a885f5b5c0057b";
  "e67e1b5a0f6349c6945bdd58af67aad3";
  "eecf3916c73040eb8546768495f78fe5";
  "3ee3f8b22ec74ba1b5dea97c41ed81be";
  "98b7267a79f8422aa09ca13b42873f5e";
  "bfc180317d244c1ba08ab96c58509873";
  "78fd64fb53aa40049238a35329e1d7f5";
  "c2fd5fabea1f4a9496dc8c73febdee2d";
  "4a94192e85ca4d43833e986cf12ee765";
  "d6b2dd0856e34daa960ac73fd0622e1d";
  "e7f7515632e842268d3cfee73e0e07d4";
  "da7244822b9c494586136099424a76b0";
  "3fbd913a87cc46278e77dc942e14822a";
  "ed5724392cfb459c9935bf0478fa7c82";
  "76481855fa67425d92fcdaac1cf01e37"
].


Definition all_guids : list string := existing_guids ++ new_block_guids.

Definition scene_path : string :=
  "/Users/ljs0218/VoxelEngine/Assets/Scenes/SampleScene.unity".

(** [f"  - {{fileID: 11400000, guid: {guid}, type: 2}}\n"] *)
Definition definition_line (guid : string) : string :=
  "  - {fileID: 11400000, guid: " +:+ guid +:+ ", type: 2}" +:+ nl.

(** [l[lo:hi] = new] for [0 <= lo]: both bounds are clipped to the length of
    the list, and an upper bound below the lower one counts as the lower
    one. *)
Definition slice_assign {A} (l : list A) (lo hi : nat) (new : list A)
  : list A :=
  take lo l ++ new ++ drop (lo `max` hi) l.

(** The loop [for i, line in enumerate(lines)]: [todo] is what the
    enumeration has still to yield, from index [i] on; the loop ends at the
    first hit, by [break]. *)
Fixpoint definitions_loop (i : nat) (todo lines : list string) : list string :=
  match todo with
  | [] => lines
  | line :: todo' =>
      if String.eqb (strip line) "definitions:" then
        slice_assign lines (i + 1) (i + 8) (definition_line <$> all_guids)
      else definitions_loop (S i) todo' lines
  end.

Definition replace_definitions (lines : list string) : list string :=
  definitions_loop 0 lines lines.

Definition update_block_registry : IO unit :=
  text ← read_text scene_path;
  let lines := readlines text in
  let lines := replace_definitions lines in
  _ ← open_write scene_path;
  _ ← fwrite scene_path (joinlines lines);
  print "Updated SampleScene.unity with new block definitions.".

(** ** Vocabulary for code that draws random numbers *)

(** From every generator state, [m] ends with a value in [Q], or with an
    exception in [E]. *)
Definition mspec {R : PyRandom} {A} (m : M A) (Q : A → Prop) (E : exn → Prop)
  : Prop :=
  ∀ s, match m s with
       | Ok (a, _) => Q a
       | Raise e => E e
       end.

(** No exception is allowed. *)
Definition no_exn : exn → Prop := λ _, False.

(** A coordinate pair of the [width] x [height] grid. *)
Definition in_grid (width height : Z) (p : pixel) : Prop :=
  0 ≤ p.1 < width ∧ 0 ≤ p.2 < height.

(** The two containers of a trail hold the same pixels, once each, all of
    them on the grid. *)
Definition trail_ok (width height : Z) (t : trail) : Prop :=
  NoDup (ordered_pixels t)
  ∧ (∀ p, p ∈ visited t ↔ p ∈ ordered_pixels t)
  ∧ (∀ p, p ∈ ordered_pixels t → in_grid width height p).

(** [for p in ps: img.putpixel(p, c)] *)
Definition draw (c : rgba) (ps : list pixel) (img : image) : result image :=
  rfor ps (λ p img', putpixel img' p.1 p.2 c) img.

(** What a sprite of the crack generator shows: [n] is the number of pattern
    pixels drawn on it. *)
Definition shows_prefix (pattern : list pixel) (stage : Z)
    (sprite : string * image) : Prop :=
  sprite.1 = crack_filename stage
  ∧ img_w sprite.2 = 16 ∧ img_h sprite.2 = 16
  ∧ ∃ n, stage_coverage 256 !! Z.to_nat stage = Some n
         ∧ 0 ≤ n ≤ 256
         ∧ actual_opaque sprite.2 = n
         ∧ ∀ p, is_crack sprite.2 p = true ↔ p ∈ take (Z.to_nat n) pattern.

(** [sep in s] *)
Fixpoint contains (sep s : string) : bool :=
  startswith s sep
  || match s with
     | EmptyString => false
     | String _ s' => contains sep s'
     end.
(** ** Tiles *)

Lemma in_image_spec img x y :
  in_image img x y = true ↔ 0 ≤ x < img_w img ∧ 0 ≤ y < img_h img.
Proof. unfold in_image. rewrite !andb_true_iff. lia. Qed.

Lemma create_tile_solid index suffix c :
  create_tile index suffix (Some c) None None
  = Ok (Image 16 16 (replicate 256 (with_alpha c 255))).
Proof. vm_compute. reflexivity. Qed.

Lemma create_tile_dual index suffix c1 c2 :
  create_tile index suffix None (Some c1) (Some c2)
  = Ok (Image 16 16 (replicate 128 (with_alpha c1 255)
                     ++ replicate 128 (with_alpha c2 255))).
Proof. vm_compute. reflexivity. Qed.

Lemma getpixel_solid v x y :
  0 ≤ x < 16 → 0 ≤ y < 16 →
  getpixel (Image 16 16 (replicate 256 v)) x y = Ok v.
Proof.
  intros Hx Hy. unfold getpixel.
  rewrite (proj2 (in_image_spec _ _ _)) by (simpl; lia).
  unfold offset; cbn [img_w img_px].
  rewrite lookup_replicate_2; [done|lia].
Qed.

Lemma getpixel_dual v1 v2 x y :
  0 ≤ x < 16 → 0 ≤ y < 16 →
  getpixel (Image 16 16 (replicate 128 v1 ++ replicate 128 v2)) x y
  = Ok (if y <? 8 then v1 else v2).
Proof.
  intros Hx Hy. unfold getpixel.
  rewrite (proj2 (in_image_spec _ _ _)) by (simpl; lia).
  unfold offset; cbn [img_w img_px].
  destruct (Z.ltb_spec y 8).
  - rewrite lookup_app_l by (rewrite length_replicate; lia).
    rewrite lookup_replicate_2; [done|lia].
  - rewrite lookup_app_r by (rewrite length_replicate; lia).
    rewrite lookup_replicate_2; [done|rewrite length_replicate; lia].
Qed.

Lemma TEXTURES_kind : Forall texture_kind TEXTURES.
Proof.
  unfold TEXTURES, texture_kind, solid, dual.
  repeat (apply Forall_cons_2;
          [first [left; simpl; by eauto | right; simpl; by eauto]|]).
  apply Forall_nil_2.
Qed.

(** C4.  For every entry of the [TEXTURES] table the tile that is built for
    it is a 16 x 16 image; for an entry with a single colour every pixel has
    that colour and alpha 255; for an entry with two colours every pixel of
    the rows [y < 8] has the first and every pixel of the rows [y >= 8] the
    second colour, with alpha 255. *)
Theorem create_tile_textures (t : texture) :
  t ∈ TEXTURES →
  ∃ tile,
    tile_of t = Ok tile
    ∧ img_w tile = 16 ∧ img_h tile = 16 ∧ length (img_px tile) = 256%nat
    ∧ (∀ c, tex_color t = Some c →
         ∀ x y, 0 ≤ x < 16 → 0 ≤ y < 16 →
           getpixel tile x y = Ok (with_alpha c 255))
    ∧ (∀ c1 c2, tex_color1 t = Some c1 → tex_color2 t = Some c2 →
         ∀ x y, 0 ≤ x < 16 → 0 ≤ y < 16 →
           getpixel tile x y
           = Ok (if y <? 8 then with_alpha c1 255 else with_alpha c2 255)).
Proof.
  intros Ht.
  pose proof (proj1 (Forall_forall _ _) TEXTURES_kind t Ht) as Hk.
  unfold tile_of.
  destruct Hk as [([c Hc] & H1 & H2) | (Hc & [c1 H1] & [c2 H2])].
  - rewrite H1, Hc, create_tile_solid. eexists; split; [done|].
    split_and!; try done.
    intros c' [= <-] x y Hx Hy. by apply getpixel_solid.
  - rewrite H1, H2, create_tile_dual. eexists; split; [done|].
    split_and!; try done.
    + intros c' Hc'. congruence.
    + intros c1' c2' [= <-] [= <-] x y Hx Hy. by apply getpixel_dual.
Qed.

Lemma create_tile_textures_witness :
  ∃ tile, tile_of (dual 26 "grass_side" (76, 153, 0) (139, 90, 43)) = Ok tile
          ∧ getpixel tile 3 7 = Ok (76, 153, 0, 255)
          ∧ getpixel tile 3 8 = Ok (139, 90, 43, 255).
Proof.
  destruct (create_tile_textures (dual 26 "grass_side" (76, 153, 0) (139, 90, 43)))
    as (tile & Ht & _ & _ & _ & _ & Hd).
  { unfold TEXTURES. do 26 (apply elem_of_cons; right). apply elem_of_cons. by left. }
  exists tile. split; [exact Ht|].
  split; [apply (Hd _ _ eq_refl eq_refl 3 7); lia
         |apply (Hd _ _ eq_refl eq_refl 3 8); lia].
Defined.
(** ** Pixel buffers *)

Lemma Image_new_wf w h c : 0 ≤ w → 0 ≤ h → image_wf (Image_new w h c).
Proof.
  intros Hw Hh. unfold image_wf, Image_new; simpl.
  by rewrite length_replicate.
Qed.

Lemma offset_lt img x y :
  image_wf img → in_image img x y = true →
  (offset img x y < length (img_px img))%nat.
Proof.
  intros (Hw & Hh & Hl) Hin%in_image_spec. rewrite Hl. unfold offset. nia.
Qed.

Lemma offset_inj img x y x' y' :
  in_image img x y = true → in_image img x' y' = true →
  offset img x y = offset img x' y' → x = x' ∧ y = y'.
Proof.
  intros Hin%in_image_spec Hin'%in_image_spec. unfold offset. intros Ho.
  assert (y * img_w img + x = y' * img_w img + x') as Heq by nia.
  assert (y = y') by nia. subst. lia.
Qed.

Lemma putpixel_dims img x y c img' :
  putpixel img x y c = Ok img' →
  img_w img' = img_w img ∧ img_h img' = img_h img.
Proof.
  unfold putpixel. destruct (in_image img x y); [|done]. by intros [= <-].
Qed.

Lemma putpixel_wf img x y c img' :
  image_wf img → putpixel img x y c = Ok img' → image_wf img'.
Proof.
  unfold putpixel, image_wf. destruct (in_image img x y); [|done].
  intros H [= <-]; simpl. by rewrite length_insert.
Qed.

Lemma getpixel_putpixel img x y c img' x' y' :
  image_wf img → putpixel img x y c = Ok img' →
  getpixel img' x' y'
  = if decide (x' = x ∧ y' = y) then Ok c else getpixel img x' y'.
Proof.
  intros Hwf Hput. unfold putpixel in Hput.
  destruct (in_image img x y) eqn:Hin; [|done]. injection Hput as <-.
  unfold getpixel, in_image, offset; simpl. fold (in_image img x' y').
  fold (offset img x' y'). fold (offset img x y).
  case_decide as Hxy.
  - destruct Hxy as [-> ->]. rewrite Hin.
    rewrite list_lookup_insert_eq; [done|by apply offset_lt].
  - destruct (in_image img x' y') eqn:Hin'; [|done].
    rewrite list_lookup_insert_ne; [done|].
    intros Ho. destruct (offset_inj _ _ _ _ _ Hin Hin' Ho). auto.
Qed.

Lemma getpixel_Image_new w h c x y :
  0 ≤ x < w → 0 ≤ y < h → getpixel (Image_new w h c) x y = Ok c.
Proof.
  intros Hx Hy. unfold getpixel.
  rewrite (proj2 (in_image_spec _ _ _)) by (simpl; lia).
  unfold Image_new, offset; cbn [img_w img_px].
  rewrite lookup_replicate_2; [done|nia].
Qed.

Lemma getpixel_wf img x y :
  image_wf img → in_image img x y = true → ∃ c, getpixel img x y = Ok c.
Proof.
  intros Hwf Hin. unfold getpixel. rewrite Hin.
  destruct (lookup_lt_is_Some_2 (img_px img) (offset img x y)) as [c ->];
    [by apply offset_lt|by eauto].
Qed.

(** ** [paste] *)

Lemma paste_pixel_wf src ax ay dx dy dst :
  image_wf dst →
  image_wf (paste_pixel src ax ay dx dy dst)
  ∧ img_w (paste_pixel src ax ay dx dy dst) = img_w dst
  ∧ img_h (paste_pixel src ax ay dx dy dst) = img_h dst.
Proof.
  intros Hwf. unfold paste_pixel.
  destruct (getpixel src dx dy) as [c|]; [|done].
  destruct (putpixel dst _ _ c) as [dst'|] eqn:Hput; [|done].
  split; [by eapply putpixel_wf|by eapply putpixel_dims].
Qed.

Lemma in_image_dims img img' x y :
  img_w img' = img_w img → img_h img' = img_h img →
  in_image img' x y = in_image img x y.
Proof. unfold in_image. by intros -> ->. Qed.

Lemma getpixel_paste_pixel src ax ay dx dy dst x y :
  image_wf src → image_wf dst →
  getpixel (paste_pixel src ax ay dx dy dst) x y
  = if decide (x = ax + dx ∧ y = ay + dy ∧ in_image src dx dy = true
               ∧ in_image dst x y = true)
    then getpixel src dx dy else getpixel dst x y.
Proof.
  intros Hs Hd. unfold paste_pixel.
  destruct (in_image src dx dy) eqn:Hin.
  - destruct (getpixel_wf src dx dy Hs Hin) as [c Hc]. rewrite Hc.
    destruct (in_image dst (ax + dx) (ay + dy)) eqn:Hin'.
    + destruct (putpixel dst _ _ c) as [dst'|] eqn:Hput;
        [|unfold putpixel in Hput; by rewrite Hin' in Hput].
      rewrite (getpixel_putpixel _ _ _ _ _ _ _ Hd Hput).
      destruct (decide (x = ax + dx ∧ y = ay + dy)) as [[-> ->]|Hne].
      * by rewrite decide_True.
      * rewrite decide_False; [done|tauto].
    + unfold putpixel. rewrite Hin'.
      rewrite decide_False; [done|]. intros (-> & -> & _ & Hd'). congruence.
  - assert (getpixel src dx dy = Raise IndexError) as ->
      by (unfold getpixel; by rewrite Hin).
    rewrite decide_False; [done|]. intros (_ & _ & ? & _). done.
Qed.

Lemma paste_row_wf src ax ay dy dxs dst :
  image_wf dst →
  image_wf (paste_row src ax ay dy dxs dst)
  ∧ img_w (paste_row src ax ay dy dxs dst) = img_w dst
  ∧ img_h (paste_row src ax ay dy dxs dst) = img_h dst.
Proof.
  revert dst. induction dxs as [|dx dxs IH]; intros dst Hwf; [done|].
  simpl. destruct (paste_pixel_wf src ax ay dx dy dst Hwf) as (H1 & H2 & H3).
  destruct (IH _ H1) as (H4 & H5 & H6). split_and!; [done|congruence..].
Qed.

Lemma getpixel_paste_row src ax ay dy dxs dst x y :
  image_wf src → image_wf dst →
  getpixel (paste_row src ax ay dy dxs dst) x y
  = if decide (y = ay + dy ∧ x - ax ∈ dxs ∧ in_image src (x - ax) dy = true
               ∧ in_image dst x y = true)
    then getpixel src (x - ax) dy else getpixel dst x y.
Proof.
  intros Hs. revert dst. induction dxs as [|dx dxs IH]; intros dst Hd.
  - simpl. rewrite decide_False; [done|]. intros (_ & H%elem_of_nil & _). done.
  - simpl. destruct (paste_pixel_wf src ax ay dx dy dst Hd) as (H1 & H2 & H3).
    rewrite (IH _ H1), getpixel_paste_pixel by done.
    rewrite (in_image_dims dst (paste_pixel src ax ay dx dy dst)) by done.
    destruct (decide (y = ay + dy ∧ x - ax ∈ dxs
                      ∧ in_image src (x - ax) dy = true
                      ∧ in_image dst x y = true)) as [(Hy & Hx & Hi & Hi')|Hrest].
    + rewrite decide_True; [done|]. split_and!; try done. apply elem_of_cons; by right.
    + destruct (decide (x = ax + dx ∧ y = ay + dy ∧ in_image src dx dy = true
                        ∧ in_image dst x y = true))
        as [(-> & -> & Hi & Hi')|Hhead].
      * replace (ax + dx - ax) with dx by lia.
        rewrite decide_True; [done|]. split_and!; try done. apply elem_of_cons; by left.
      * rewrite decide_False; [done|]. intros (Hy & Hx & Hi & Hi').
        apply elem_of_cons in Hx as [Hx|Hx]; [|tauto].
        apply Hhead. rewrite <- Hx. split_and!; [lia|done..].
Qed.

Lemma paste_rows_wf src ax ay dys dst :
  image_wf dst →
  let dst' :=
    foldl (λ d dy, paste_row src ax ay dy (range (img_w src)) d) dst dys in
  image_wf dst' ∧ img_w dst' = img_w dst ∧ img_h dst' = img_h dst.
Proof.
  revert dst. induction dys as [|dy dys IH]; intros dst Hwf; [done|].
  cbn [foldl].
  destruct (paste_row_wf src ax ay dy (range (img_w src)) dst Hwf)
    as (H1 & H2 & H3).
  destruct (IH _ H1) as (H4 & H5 & H6). split_and!; [done|congruence..].
Qed.

Lemma paste_wf dst src ax ay :
  image_wf dst →
  image_wf (paste dst src ax ay)
  ∧ img_w (paste dst src ax ay) = img_w dst
  ∧ img_h (paste dst src ax ay) = img_h dst.
Proof. apply paste_rows_wf. Qed.

Lemma getpixel_paste_rows src ax ay dys dst x y :
  image_wf src → image_wf dst →
  getpixel (foldl (λ d dy, paste_row src ax ay dy (range (img_w src)) d) dst dys)
           x y
  = if decide (y - ay ∈ dys ∧ in_image src (x - ax) (y - ay) = true
               ∧ in_image dst x y = true)
    then getpixel src (x - ax) (y - ay) else getpixel dst x y.
Proof.
  intros Hs. revert dst. induction dys as [|dy dys IH]; intros dst Hd.
  - cbn [foldl]. rewrite decide_False; [done|]. intros (H%elem_of_nil & _). done.
  - cbn [foldl].
    destruct (paste_row_wf src ax ay dy (range (img_w src)) dst Hd)
      as (H1 & H2 & H3).
    rewrite (IH _ H1), getpixel_paste_row by done.
    rewrite (in_image_dims dst (paste_row src ax ay dy (range (img_w src)) dst))
      by done.
    destruct (decide (y - ay ∈ dys ∧ in_image src (x - ax) (y - ay) = true
                      ∧ in_image dst x y = true)) as [(Hy & Hi & Hi')|Hrest].
    + rewrite decide_True; [done|]. split_and!; try done. apply elem_of_cons; by right.
    + destruct (decide (y = ay + dy ∧ x - ax ∈ range (img_w src)
                        ∧ in_image src (x - ax) dy = true
                        ∧ in_image dst x y = true))
        as [(-> & Hx & Hi & Hi')|Hhead].
      * replace (ay + dy - ay) with dy by lia.
        rewrite decide_True; [done|]. split_and!; try done. apply elem_of_cons; by left.
      * rewrite decide_False; [done|]. intros (Hy & Hi & Hi').
        apply elem_of_cons in Hy as [Hy|Hy]; [|tauto].
        apply Hhead. rewrite <- Hy. split_and!; [lia| |done..].
        apply in_image_spec in Hi. unfold range. apply elem_of_seqZ. lia.
Qed.

(** What [paste] leaves at every position. *)
Lemma getpixel_paste dst src ax ay x y :
  image_wf src → image_wf dst →
  getpixel (paste dst src ax ay) x y
  = if decide (in_image src (x - ax) (y - ay) = true ∧ in_image dst x y = true)
    then getpixel src (x - ax) (y - ay) else getpixel dst x y.
Proof.
  intros Hs Hd. unfold paste.
  rewrite getpixel_paste_rows by done.
  destruct (decide (in_image src (x - ax) (y - ay) = true
                    ∧ in_image dst x y = true)) as [[Hi Hi']|Hn].
  - rewrite decide_True; [done|]. split_and!; try done.
    apply in_image_spec in Hi. unfold range. apply elem_of_seqZ. lia.
  - rewrite decide_False; [done|]. tauto.
Qed.

(** ** The atlas *)

Lemma tile_of_wf t tile :
  tile_of t = Ok tile → image_wf tile ∧ img_w tile = 16 ∧ img_h tile = 16.
Proof.
  unfold tile_of.
  destruct (tex_color1 t) as [c1|].
  - destruct (tex_color2 t) as [c2|]; [|done].
    rewrite create_tile_dual. intros [= <-]. by vm_compute.
  - destruct (tex_color t) as [c|]; [|done].
    rewrite create_tile_solid. intros [= <-]. by vm_compute.
Qed.

Lemma in_region_disjoint n m x y :
  in_region n x y → in_region m x y → n = m.
Proof.
  unfold in_region, atlas_x, atlas_y, ATLAS_SIZE, TILE_SIZE, TILES_PER_ROW.
  intros [Hx Hy] [Hx' Hy'].
  pose proof (Z.div_mod n 16). pose proof (Z.div_mod m 16).
  pose proof (Z.mod_pos_bound n 16). pose proof (Z.mod_pos_bound m 16).
  lia.
Qed.

Lemma in_region_bounds n x y :
  0 ≤ n < 256 → in_region n x y → 0 ≤ x < 256 ∧ 0 ≤ y < 256.
Proof.
  unfold in_region, atlas_x, atlas_y, ATLAS_SIZE, TILE_SIZE, TILES_PER_ROW.
  intros Hn [Hx Hy].
  pose proof (Z.div_mod n 16). pose proof (Z.mod_pos_bound n 16).
  lia.
Qed.

Lemma place_texture_inv t st st' :
  place_texture t st = Ok st' →
  ∃ tile, tile_of t = Ok tile
    ∧ block_atlas st'
      = paste (block_atlas st) tile (atlas_x (tex_index t)) (atlas_y (tex_index t))
    ∧ saved_tiles st' = saved_tiles st ++ [(tile_filename t, tile)].
Proof.
  unfold place_texture. destruct (tile_of t) as [tile|]; [|done].
  intros [= <-]. by exists tile.
Qed.

Lemma getpixel_place_texture t st st' tile x y :
  image_wf (block_atlas st) →
  place_texture t st = Ok st' → tile_of t = Ok tile →
  in_image (block_atlas st) x y = true →
  getpixel (block_atlas st') x y
  = if decide (in_region (tex_index t) x y)
    then getpixel tile (x - atlas_x (tex_index t)) (y - atlas_y (tex_index t))
    else getpixel (block_atlas st) x y.
Proof.
  intros Hwf (tile' & Ht & -> & _)%place_texture_inv Ht' Hin.
  assert (tile' = tile) as -> by congruence.
  destruct (tile_of_wf _ _ Ht) as (Hwt & Hw & Hh).
  rewrite getpixel_paste by done.
  destruct (decide (in_region (tex_index t) x y)) as [Hr|Hr].
  - rewrite decide_True; [done|]. split; [|done].
    apply in_image_spec. unfold in_region, TILE_SIZE in Hr. lia.
  - rewrite decide_False; [done|]. intros [Hi%in_image_spec _]. apply Hr.
    unfold in_region, TILE_SIZE. lia.
Qed.

Lemma place_texture_wf t st st' :
  image_wf (block_atlas st) → place_texture t st = Ok st' →
  image_wf (block_atlas st')
  ∧ img_w (block_atlas st') = img_w (block_atlas st)
  ∧ img_h (block_atlas st') = img_h (block_atlas st).
Proof.
  intros Hwf (tile & Ht & -> & _)%place_texture_inv. by apply paste_wf.
Qed.

(** The loop over the table: a position keeps the pixel of the only tile
    whose square contains it, and the background elsewhere. *)
Lemma place_textures_spec ts st st' :
  NoDup (tex_index <$> ts) →
  image_wf (block_atlas st) →
  rfor ts place_texture st = Ok st' →
  (image_wf (block_atlas st')
   ∧ img_w (block_atlas st') = img_w (block_atlas st)
   ∧ img_h (block_atlas st') = img_h (block_atlas st))
  ∧ (∀ x y, (∀ t, t ∈ ts → ¬ in_region (tex_index t) x y) →
       getpixel (block_atlas st') x y = getpixel (block_atlas st) x y)
  ∧ (∀ t tile x y,
       t ∈ ts → tile_of t = Ok tile → in_region (tex_index t) x y →
       in_image (block_atlas st) x y = true →
       getpixel (block_atlas st') x y
       = getpixel tile (x - atlas_x (tex_index t)) (y - atlas_y (tex_index t)))
  ∧ (∀ e, e ∈ saved_tiles st → e ∈ saved_tiles st')
  ∧ (∀ t tile, t ∈ ts → tile_of t = Ok tile →
       (tile_filename t, tile) ∈ saved_tiles st').
Proof.
  revert st. induction ts as [|t ts IH]; intros st Hnd Hwf Hrun.
  - injection Hrun as <-. split_and!; try done.
    + intros t tile x y Ht. by apply elem_of_nil in Ht.
    + intros t tile Ht. by apply elem_of_nil in Ht.
  - cbn [rfor] in Hrun.
    destruct (place_texture t st) as [st1|] eqn:Hplace; [|done].
    change (rfor ts place_texture st1 = Ok st') in Hrun.
    rewrite fmap_cons in Hnd. apply NoDup_cons in Hnd as [Hfresh Hnd].
    destruct (place_texture_wf _ _ _ Hwf Hplace) as (Hwf1 & Hw1 & Hh1).
    destruct (IH st1 Hnd Hwf1 Hrun)
      as ((Hwf' & Hw' & Hh') & Hframe & Hhit & Hkeep & Hsaved).
    destruct (place_texture_inv _ _ _ Hplace) as (tile0 & Ht0 & _ & Hs0).
    assert (∀ x y, getpixel (block_atlas st1) x y
                   = if decide (in_region (tex_index t) x y
                                ∧ in_image (block_atlas st) x y = true)
                     then getpixel tile0 (x - atlas_x (tex_index t))
                                         (y - atlas_y (tex_index t))
                     else getpixel (block_atlas st) x y) as Hst1.
    { intros x y. destruct (in_image (block_atlas st) x y) eqn:Hin.
      - rewrite (getpixel_place_texture _ _ _ _ _ _ Hwf Hplace Ht0 Hin).
        destruct (decide (in_region (tex_index t) x y)).
        + by rewrite decide_True.
        + rewrite decide_False; [done|tauto].
      - rewrite decide_False by (intros [_ ?]; done).
        unfold getpixel.
        rewrite (in_image_dims (block_atlas st) (block_atlas st1)) by done.
        by rewrite Hin. }
    split_and!; [done|congruence|congruence|..].
    + intros x y Hout.
      rewrite Hframe by (intros t' Ht'; apply Hout; apply elem_of_cons; by right).
      rewrite Hst1. rewrite decide_False; [done|].
      intros [Hr _]. by apply (Hout t); [apply elem_of_cons; by left|].
    + intros t' tile x y Ht' Htile Hr Hin.
      apply elem_of_cons in Ht' as [->|Ht'].
      * assert (tile = tile0) as -> by congruence.
        rewrite Hframe.
        -- rewrite Hst1. by rewrite decide_True.
        -- intros t2 Ht2 Hr2. apply Hfresh.
           rewrite (in_region_disjoint _ _ _ _ Hr Hr2).
           by apply list_elem_of_fmap_2.
      * apply Hhit; try done.
        by rewrite (in_image_dims (block_atlas st) (block_atlas st1)).
    + intros e He. apply Hkeep. rewrite Hs0. apply elem_of_app. by left.
    + intros t' tile Ht' Htile.
      apply elem_of_cons in Ht' as [->|Ht'].
      * assert (tile = tile0) as -> by congruence.
        apply Hkeep. rewrite Hs0. apply elem_of_app. right.
        by apply list_elem_of_singleton.
      * by apply Hsaved.
Qed.

Lemma place_textures_run ts st :
  Forall (λ t, ∃ tile, tile_of t = Ok tile) ts →
  ∃ st', rfor ts place_texture st = Ok st'.
Proof.
  intros Hts. revert st. induction Hts as [|t ts [tile Ht] _ IH]; intros st.
  - by exists st.
  - cbn [rfor].
    assert (∃ st1, place_texture t st = Ok st1) as [st1 ->]
      by (unfold place_texture; rewrite Ht; by eexists).
    apply IH.
Qed.

Lemma TEXTURES_tiles : Forall (λ t, ∃ tile, tile_of t = Ok tile) TEXTURES.
Proof.
  unfold TEXTURES, solid, dual.
  repeat (apply Forall_cons_2;
          [unfold tile_of; cbn [tex_color tex_color1 tex_color2];
           first [rewrite create_tile_solid | rewrite create_tile_dual];
           by eexists|]).
  apply Forall_nil_2.
Qed.

Lemma TEXTURES_index (n : Z) :
  0 ≤ n ≤ 30 → ∃ t, TEXTURES !! Z.to_nat n = Some t ∧ tex_index t = n.
Proof.
  intros Hn.
  assert (n ∈ seqZ 0 31) as Hin by (apply elem_of_seqZ; lia).
  revert Hin. generalize n. apply Forall_forall.
  vm_compute seqZ.
  repeat (apply Forall_cons_2; [by eexists|]). apply Forall_nil_2.
Qed.

Lemma TEXTURES_NoDup : NoDup (tex_index <$> TEXTURES).
Proof. apply (bool_decide_unpack _). by vm_compute. Qed.

(** C5.  The atlas is a 256 x 256 image.  The tile of index [n], for [n]
    from 0 to 30, is the table entry at position [n]; its square starts at
    [x = (n mod 16) * 16], [y = 240 - (n div 16) * 16], lies inside the
    atlas, shares no position with the square of another index, and holds
    the pixels of the individual tile that was saved for the entry. *)
Theorem atlas_layout (n : Z) :
  0 ≤ n ≤ 30 →
  let ax := (n `mod` 16) * 16 in
  let ay := 240 - (n `div` 16) * 16 in
  ∃ out t tile,
    generate_textures = Ok out
    ∧ img_w (block_atlas out) = 256 ∧ img_h (block_atlas out) = 256
    ∧ TEXTURES !! Z.to_nat n = Some t ∧ tex_index t = n
    ∧ atlas_x n = ax ∧ atlas_y n = ay
    ∧ (tile_filename t, tile) ∈ saved_tiles out
    ∧ (0 ≤ ax ∧ ax + 16 ≤ 256 ∧ 0 ≤ ay ∧ ay + 16 ≤ 256)
    ∧ (∀ dx dy, 0 ≤ dx < 16 → 0 ≤ dy < 16 →
         getpixel (block_atlas out) (ax + dx) (ay + dy) = getpixel tile dx dy)
    ∧ (∀ m dx dy dx' dy',
         0 ≤ m ≤ 30 → m ≠ n →
         0 ≤ dx < 16 → 0 ≤ dy < 16 → 0 ≤ dx' < 16 → 0 ≤ dy' < 16 →
         (ax + dx, ay + dy)
         ≠ ((m `mod` 16) * 16 + dx', 240 - (m `div` 16) * 16 + dy')).
Proof.
  intros Hn ax ay.
  set (blank := Image_new ATLAS_SIZE ATLAS_SIZE (0, 0, 0, 0)).
  destruct (place_textures_run TEXTURES (TexturesOut blank []) TEXTURES_tiles)
    as [out Hout].
  destruct (TEXTURES_index n Hn) as (t & Hlook & Hidx).
  assert (t ∈ TEXTURES) as Ht by (by eapply list_elem_of_lookup_2).
  destruct (proj1 (Forall_forall _ _) TEXTURES_tiles t Ht) as [tile Htile].
  assert (image_wf blank) as Hwf
    by (apply Image_new_wf; unfold ATLAS_SIZE; lia).
  destruct (place_textures_spec TEXTURES (TexturesOut blank []) out
              TEXTURES_NoDup Hwf Hout)
    as ((_ & Hw & Hh) & _ & Hhit & _ & Hsaved).
  change (img_w (block_atlas out) = 256) in Hw.
  change (img_h (block_atlas out) = 256) in Hh.
  assert (∀ x y, 0 ≤ x < 256 → 0 ≤ y < 256 → in_image blank x y = true)
    as Hblank.
  { intros x y Hx Hy. apply in_image_spec.
    change (0 ≤ x < 256 ∧ 0 ≤ y < 256). lia. }
  assert (generate_textures = Ok out) as Hgen
    by (unfold generate_textures; exact Hout).
  clearbody blank.
  assert (0 ≤ ax ∧ ax + 16 ≤ 256 ∧ 0 ≤ ay ∧ ay + 16 ≤ 256) as Hbounds.
  { unfold ax, ay. pose proof (Z.mod_pos_bound n 16).
    pose proof (Z.div_mod n 16). lia. }
  assert (atlas_x n = ax ∧ atlas_y n = ay) as [Hax Hay]
    by (split; reflexivity).
  exists out, t, tile.
  split; [exact Hgen|]. split; [exact Hw|]. split; [exact Hh|].
  split; [exact Hlook|]. split; [exact Hidx|].
  split; [exact Hax|]. split; [exact Hay|].
  split; [exact (Hsaved t tile Ht Htile)|]. split; [exact Hbounds|]. split.
  - intros dx dy Hdx Hdy.
    rewrite (Hhit t tile (ax + dx) (ay + dy) Ht Htile).
    + rewrite Hidx, Hax, Hay.
      replace (ax + dx - ax) with dx by lia.
      replace (ay + dy - ay) with dy by lia. reflexivity.
    + rewrite Hidx. unfold in_region. rewrite Hax, Hay. unfold TILE_SIZE. lia.
    + apply Hblank; lia.
  - intros m dx dy dx' dy' Hm Hne Hdx Hdy Hdx' Hdy' [= Hx Hy].
    apply Hne. symmetry. apply (in_region_disjoint n m (ax + dx) (ay + dy)).
    + unfold in_region. rewrite Hax, Hay. unfold TILE_SIZE. lia.
    + unfold in_region, atlas_x, atlas_y, ATLAS_SIZE, TILE_SIZE, TILES_PER_ROW.
      lia.
Qed.

Lemma atlas_layout_witness :
  ∃ out tile,
    generate_textures = Ok out
    ∧ (tile_filename (dual 26 "grass_side" (76, 153, 0) (139, 90, 43)), tile)
      ∈ saved_tiles out
    ∧ getpixel (block_atlas out) (160 + 3) (224 + 8) = getpixel tile 3 8.
Proof.
  destruct (atlas_layout 26) as (out & t & tile & Hrun & _ & _ & Ht & _ & _ & _
                                 & Hs & _ & Hpx & _); [lia|].
  injection Ht as <-.
  exists out, tile. split_and!; [done|done|]. apply (Hpx 3 8); lia.
Defined.

(** ** Random draws *)

Section RandomLaws.
Context {R : PyRandom}.

Lemma mspec_ret {A} (a : A) (Q : A → Prop) E : Q a → mspec (mret a) Q E.
Proof. intros Ha s. exact Ha. Qed.

Lemma mspec_bind {A B} (m : M A) (f : A → M B) Q1 (Q2 : B → Prop) E :
  mspec m Q1 E → (∀ a, Q1 a → mspec (f a) Q2 E) → mspec (m ≫= f) Q2 E.
Proof.
  intros Hm Hf s. specialize (Hm s).
  unfold mbind, M_bind, M_then. destruct (m s) as [[a s']|e]; [|done].
  apply (Hf a Hm s').
Qed.

Lemma mspec_mono {A} (m : M A) (Q Q' : A → Prop) E :
  mspec m Q E → (∀ a, Q a → Q' a) → mspec m Q' E.
Proof.
  intros Hm HQ s. specialize (Hm s). destruct (m s) as [[a s']|e]; auto.
Qed.

Lemma mspec_lift {A} (r : result A) (Q : A → Prop) E :
  (∀ a, r = Ok a → Q a) → (∀ e, r = Raise e → E e) → mspec (M_lift r) Q E.
Proof. intros HQ HE s. unfold M_lift. destruct r; auto. Qed.

(** A loop keeps what each of its rounds keeps. *)
Lemma mspec_mfor {A St} (l : list A) (body : A → St → M St)
    (I : St → Prop) E st :
  (∀ v st', v ∈ l → I st' → mspec (body v st') I E) →
  I st → mspec (mfor l body st) I E.
Proof.
  revert st. induction l as [|v l IH]; intros st Hbody Hst.
  - by apply mspec_ret.
  - cbn [mfor]. eapply mspec_bind.
    + apply Hbody; [apply elem_of_cons; by left|done].
    + intros st' Hst'. apply IH; [|done].
      intros v' st'' Hv'. apply Hbody. apply elem_of_cons; by right.
Qed.

Lemma mspec_seed n E : mspec (seed n) (λ _, True) E.
Proof. intros s. exact I. Qed.

Context (Hlaw : rng_lawful R).

Lemma mspec_randbelow n E :
  0 < n → mspec (λ s, Ok (randbelow n s)) (λ k, 0 ≤ k < n) E.
Proof.
  intros Hn s. pose proof (Hlaw n s Hn) as Hk.
  destruct (randbelow n s) as [k s']. exact Hk.
Qed.

Lemma mspec_randint a b (E : exn → Prop) :
  (b < a → E ValueError) → mspec (randint a b) (λ v, a ≤ v ≤ b) E.
Proof.
  intros HE s. unfold randint. destruct (Z.ltb_spec b a) as [Hlt|Hle].
  - by apply HE.
  - pose proof (Hlaw (b - a + 1) s ltac:(lia)) as Hk.
    destruct (randbelow (b - a + 1) s) as [k s']. simpl in Hk. lia.
Qed.

Lemma mspec_choice {A} (l : list A) E :
  l ≠ [] → mspec (choice l) (λ v, v ∈ l) E.
Proof.
  intros Hne s. unfold choice. destruct l as [|x l]; [done|].
  pose proof (Hlaw (Z.of_nat (length (x :: l))) s ltac:(simpl; lia)) as Hk.
  destruct (randbelow _ s) as [k s']. simpl fst in Hk.
  destruct (lookup_lt_is_Some_2 (x :: l) (Z.to_nat k)) as [v Hv]; [lia|].
  rewrite Hv. by eapply list_elem_of_lookup_2.
Qed.

Lemma swap_Permutation {A} (i j : nat) (x : list A) :
  (i < length x)%nat → (j < length x)%nat →
  ∃ x', swap i j x = Ok x' ∧ x' ≡ₚ x.
Proof.
  intros Hi Hj. unfold swap.
  destruct (lookup_lt_is_Some_2 x i Hi) as [xi Hxi].
  destruct (lookup_lt_is_Some_2 x j Hj) as [xj Hxj].
  rewrite Hxi, Hxj. eexists; split; [done|].
  apply Permutation_inj. split; [by rewrite !length_insert|].
  exists (λ k, if decide (k = i) then j else if decide (k = j) then i else k).
  split.
  - intros k1 k2. repeat case_decide; lia.
  - intros k. destruct (decide (k = j)) as [->|Hkj].
    + rewrite list_lookup_insert_eq by (by rewrite length_insert).
      destruct (decide (j = i)) as [->|Hji]; [congruence|].
      destruct (decide (j = j)); [congruence|done].
    + rewrite list_lookup_insert_ne by done.
      destruct (decide (k = i)) as [->|Hki].
      * by rewrite list_lookup_insert_eq.
      * by rewrite list_lookup_insert_ne.
Qed.

Lemma mspec_shuffle {A} (x : list A) E :
  mspec (shuffle x) (λ x', x' ≡ₚ x) E.
Proof.
  unfold shuffle.
  apply (mspec_mfor _ _ (λ x', x' ≡ₚ x)); [|done].
  intros i x' Hi%elem_of_reverse%elem_of_seqZ Hx'.
  assert (length x' = length x) as Hlen by (by rewrite Hx').
  eapply mspec_bind; [apply (mspec_randbelow (i + 1)); lia|].
  intros j Hj. cbn beta in Hj |- *.
  destruct (swap_Permutation (Z.to_nat i) (Z.to_nat j) x') as (x'' & -> & Hp);
    [lia..|].
  apply mspec_lift; [|done]. intros ? [= <-]. by rewrite Hp.
Qed.

End RandomLaws.

(** ** The crack pattern *)

Lemma clamp_bounds hi v : 0 < hi → 0 ≤ clamp hi v < hi.
Proof. unfold clamp. lia. Qed.

Lemma trail_ok_empty width height : trail_ok width height (Trail ∅ []).
Proof.
  split_and!; cbn.
  - apply NoDup_nil_2.
  - intros p. rewrite elem_of_nil. set_solver.
  - intros p Hp. by apply elem_of_nil in Hp.
Qed.

Lemma visit_ok width height p t :
  trail_ok width height t → in_grid width height p →
  trail_ok width height (visit p t).
Proof.
  intros (Hnd & Hsame & Hin) Hp. unfold visit.
  destruct (decide (p ∈ visited t)) as [Hv|Hv]; [done|].
  split_and!; cbn.
  - apply NoDup_app. split_and!; [done| |apply NoDup_singleton].
    intros q Hq Hq'%list_elem_of_singleton. subst q. by apply Hv, Hsame.
  - intros q. rewrite elem_of_union, elem_of_singleton, elem_of_app,
      list_elem_of_singleton, Hsame. tauto.
  - intros q [Hq|Hq%list_elem_of_singleton]%elem_of_app; [by apply Hin|].
    by subst q.
Qed.

Lemma all_pixels_spec width height p :
  p ∈ all_pixels width height ↔ in_grid width height p.
Proof.
  unfold all_pixels, in_grid, range. rewrite list_elem_of_bind. split.
  - intros (px & Hp & Hpx). apply list_elem_of_fmap in Hp as (py & -> & Hpy).
    apply elem_of_seqZ in Hpx, Hpy. cbn. lia.
  - intros [Hx Hy]. exists p.1. split.
    + apply list_elem_of_fmap. exists p.2. split; [by destruct p|].
      apply elem_of_seqZ. lia.
    + apply elem_of_seqZ. lia.
Qed.

Lemma all_pixels_NoDup width height : NoDup (all_pixels width height).
Proof.
  unfold all_pixels, range. apply NoDup_bind.
  - intros px1 px2 p _ _ (? & -> & _)%list_elem_of_fmap
      (? & [= -> _] & _)%list_elem_of_fmap. done.
  - intros px _. apply NoDup_fmap_2; [|apply NoDup_seqZ].
    intros ?? [= ->]. done.
  - apply NoDup_seqZ.
Qed.

Lemma all_pixels_length width height :
  length (all_pixels width height) = (Z.to_nat width * Z.to_nat height)%nat.
Proof.
  unfold all_pixels, range.
  assert (∀ xs : list Z,
            length (xs ≫= λ px, (λ py, (px, py)) <$> seqZ 0 height)
            = (length xs * Z.to_nat height)%nat) as Hlen.
  { induction xs as [|x xs IH]; [done|].
    rewrite bind_cons, length_app, length_fmap, length_seqZ, IH. cbn. lia. }
  by rewrite Hlen, length_seqZ.
Qed.

Lemma fill_remaining_spec ps t :
  visited (fill_remaining ps t) = visited t
  ∧ ordered_pixels (fill_remaining ps t)
    = ordered_pixels t ++ filter (λ p, p ∉ visited t) ps.
Proof.
  unfold fill_remaining. revert t. induction ps as [|p ps IH]; intros t.
  - cbn. by rewrite app_nil_r.
  - cbn [foldl]. destruct (decide (p ∈ visited t)) as [Hv|Hv].
    + destruct (IH t) as [-> ->]. split; [done|].
      rewrite filter_cons. by rewrite decide_False by (by intros ?).
    + destruct (IH (Trail (visited t) (ordered_pixels t ++ [p]))) as [-> ->].
      cbn [visited ordered_pixels]. split; [done|].
      rewrite filter_cons, decide_True by done. by rewrite <- app_assoc.
Qed.

Section CrackPatternLaws.
Context {R : PyRandom} (Hlaw : rng_lawful R).
Context (width height : Z) (Hw : 0 < width) (Hh : 0 < height).

Lemma pick_origin_ok origins :
  Forall (in_grid width height) origins →
  mspec (pick_origin width height origins) (Forall (in_grid width height))
        no_exn.
Proof.
  intros Ho. unfold pick_origin.
  eapply mspec_bind; [apply (mspec_randint Hlaw); lia|].
  intros side Hside. cbn beta.
  repeat case_match;
    (eapply mspec_bind; [apply (mspec_randint Hlaw); lia|]);
    intros v Hv; apply mspec_ret; apply Forall_app; (split; [done|]);
    apply Forall_singleton; unfold in_grid; cbn in *; lia.
Qed.

Lemma walk_step_ok step st :
  in_grid width height st.1 ∧ trail_ok width height st.2 →
  mspec (walk_step width height step st)
        (λ st', in_grid width height st'.1 ∧ trail_ok width height st'.2)
        no_exn.
Proof.
  destruct st as [[x y] t]. intros [Hpos Ht]. cbn in Hpos, Ht.
  unfold walk_step.
  pose proof (visit_ok _ _ (x, y) t Ht Hpos) as Ht1.
  eapply mspec_bind; [by apply (mspec_choice Hlaw)|]. intros dx _.
  eapply mspec_bind; [by apply (mspec_choice Hlaw)|]. intros dy _.
  eapply mspec_bind with (Q1 := λ _, True).
  { case_match; [|by apply mspec_ret].
    eapply mspec_mono; [by apply (mspec_choice Hlaw)|done]. }
  intros dx' _. cbn beta zeta.
  assert (in_grid width height (clamp width (x + dx'), clamp height (y + dy)))
    as Hpos' by (split; cbn; by apply clamp_bounds).
  case_match.
  - eapply mspec_bind; [by apply (mspec_choice Hlaw)|]. intros cx _.
    eapply mspec_bind; [by apply (mspec_choice Hlaw)|]. intros cy _.
    apply mspec_ret. split; [done|]. cbn.
    apply visit_ok; [done|]. split; cbn; by apply clamp_bounds.
  - by apply mspec_ret.
Qed.

Lemma walk_from_ok origin t :
  in_grid width height origin → trail_ok width height t →
  mspec (walk_from width height origin t) (trail_ok width height) no_exn.
Proof.
  intros Ho Ht. unfold walk_from. cbn zeta.
  eapply mspec_bind.
  - apply (mspec_mfor _ _
             (λ st, in_grid width height st.1 ∧ trail_ok width height st.2));
      [|done].
    intros step st _ Hst. by apply walk_step_ok.
  - intros st [_ Hst]. by apply mspec_ret.
Qed.

(** The pattern holds every pixel of the grid once. *)
Lemma pattern_ok seed_value :
  mspec (generate_full_crack_pattern width height seed_value)
        (λ pattern, NoDup pattern
                    ∧ ∀ p, p ∈ pattern ↔ in_grid width height p)
        no_exn.
Proof.
  unfold generate_full_crack_pattern.
  eapply mspec_bind; [apply mspec_seed|]. intros _ _.
  eapply mspec_bind.
  { apply (mspec_mfor _ _ (Forall (in_grid width height))); [|done].
    intros _ origins _ Ho. by apply pick_origin_ok. }
  intros origins Ho.
  eapply mspec_bind.
  { apply (mspec_mfor _ _ (trail_ok width height));
      [|apply trail_ok_empty].
    intros origin t Hin Ht. apply walk_from_ok; [|done].
    by apply (proj1 (Forall_forall _ _) Ho). }
  intros t (Hnd & Hsame & Hin).
  eapply mspec_bind; [apply (mspec_shuffle Hlaw)|].
  intros shuffled Hperm. apply mspec_ret.
  destruct (fill_remaining_spec shuffled t) as [_ ->]. split.
  - apply NoDup_app. split_and!; [done| |].
    + intros p Hp (Hnv & _)%list_elem_of_filter. by apply Hnv, Hsame.
    + apply NoDup_filter. rewrite Hperm. apply all_pixels_NoDup.
  - intros p. rewrite elem_of_app, list_elem_of_filter, Hperm,
      all_pixels_spec, <- Hsame. split.
    + intros [Hp|[_ Hp]]; [by apply Hin, Hsame|done].
    + intros Hp. destruct (decide (p ∈ visited t)); [by left|by right].
Qed.

End CrackPatternLaws.

Lemma lcg_lawful : rng_lawful lcg_random.
Proof. intros n s Hn. cbn. apply Z.mod_pos_bound. lia. Qed.

(** C8.  For a grid with positive sides and a lawful generator,
    [generate_full_crack_pattern] returns, and what it returns is a
    permutation of the grid: every pair [(x, y)] with [0 <= x < width] and
    [0 <= y < height] stands at exactly one index of the list, nothing else
    is in the list, and the list has [width * height] entries (256 for the
    16 x 16 grid). *)
Theorem crack_pattern_is_permutation {R : PyRandom}
    (width height seed_value : Z) (s : rng_state) :
  rng_lawful R → 0 < width → 0 < height →
  ∃ pattern s',
    generate_full_crack_pattern width height seed_value s = Ok (pattern, s')
    ∧ pattern ≡ₚ all_pixels width height
    ∧ NoDup pattern
    ∧ (∀ x y, (x, y) ∈ pattern ↔ 0 ≤ x < width ∧ 0 ≤ y < height)
    ∧ (∀ x y, 0 ≤ x < width → 0 ≤ y < height →
         ∃ i, pattern !! i = Some (x, y)
              ∧ ∀ j, pattern !! j = Some (x, y) → j = i)
    ∧ length pattern = Z.to_nat (width * height)
    ∧ (width = 16 → height = 16 → length pattern = 256%nat).
Proof.
  intros Hlaw Hw Hh.
  pose proof (pattern_ok Hlaw width height Hw Hh seed_value s) as Hrun.
  destruct (generate_full_crack_pattern width height seed_value s)
    as [[pattern s']|e]; [|done].
  destruct Hrun as [Hnd Hin].
  assert (pattern ≡ₚ all_pixels width height) as Hperm.
  { apply NoDup_Permutation; [done|apply all_pixels_NoDup|].
    intros p. by rewrite Hin, all_pixels_spec. }
  assert (length pattern = Z.to_nat (width * height)) as Hlen.
  { rewrite Hperm, all_pixels_length. nia. }
  exists pattern, s'.
  split; [done|]. split; [done|]. split; [done|]. split; [|split; [|split]].
  - intros x y. apply (Hin (x, y)).
  - intros x y Hx Hy.
    destruct (list_elem_of_lookup_1 pattern (x, y)) as [i Hi];
      [by apply Hin|].
    exists i. split; [done|]. intros j Hj.
    by apply (NoDup_lookup pattern j i (x, y)).
  - done.
  - intros -> ->. by rewrite Hlen.
Qed.

Lemma crack_pattern_is_permutation_witness :
  ∃ pattern s',
    generate_full_crack_pattern (R := lcg_random) 16 16 42 0 = Ok (pattern, s')
    ∧ NoDup pattern ∧ length pattern = 256%nat.
Proof.
  destruct (crack_pattern_is_permutation (R := lcg_random) 16 16 42 0
              lcg_lawful ltac:(lia) ltac:(lia))
    as (pattern & s' & Hrun & _ & Hnd & _ & _ & _ & Hlen).
  exists pattern, s'. split; [exact Hrun|]. split; [exact Hnd|].
  apply Hlen; reflexivity.
Defined.

(** C10.  The generator is seeded before the first draw, so the state the
    module was left in by earlier code has no influence: the pattern, and
    with seed 42 the ten sprites, are the same from any two initial
    states. *)
Theorem crack_pattern_deterministic {R : PyRandom}
    (width height seed_value : Z) (s1 s2 : rng_state) :
  generate_full_crack_pattern width height seed_value s1
  = generate_full_crack_pattern width height seed_value s2
  ∧ generate_crack_sprites s1 = generate_crack_sprites s2.
Proof. split; reflexivity. Qed.

(** ** The crack sprites *)

Lemma item_lookup {A} (l : list A) (i : Z) (v : A) :
  0 ≤ i → l !! Z.to_nat i = Some v → item l i = Ok v.
Proof.
  intros Hi Hv. unfold item. destruct (Z.ltb_spec i 0); [lia|].
  cbn zeta. destruct (Z.ltb_spec i 0); [lia|]. by rewrite Hv.
Qed.

Lemma item_middle {A} (pre : list A) (p : A) (post : list A) :
  item (pre ++ p :: post) (Z.of_nat (length pre)) = Ok p.
Proof.
  apply item_lookup; [lia|]. rewrite Nat2Z.id. by apply list_lookup_middle.
Qed.

(** Indexing the pattern from [0] to [n - 1] visits its first [n] entries. *)
Lemma rfor_items (pre ps post : list pixel) (c : rgba) (img : image) :
  rfor (seqZ (Z.of_nat (length pre)) (Z.of_nat (length ps)))
       (λ i img', '(x, y) ← item (pre ++ ps ++ post) i; putpixel img' x y c)
       img
  = draw c ps img.
Proof.
  revert pre img. induction ps as [|p ps IH]; intros pre img; [done|].
  rewrite seqZ_cons by (cbn; lia). cbn [rfor draw].
  change ((p :: ps) ++ post) with (p :: ps ++ post).
  rewrite item_middle. destruct p as [x y]. cbn [mbind result_bind rbind fst snd].
  destruct (putpixel img x y c) as [img1|e]; [|done].
  cbn [mbind result_bind rbind].
  specialize (IH (pre ++ [(x, y)]) img1).
  rewrite <- app_assoc in IH. cbn [app] in IH.
  rewrite length_app in IH. cbn [length] in IH.
  replace (Z.succ (Z.of_nat (length pre)))
    with (Z.of_nat (length pre + 1)) by lia.
  cbn [length]. rewrite Nat2Z.inj_succ, Z.pred_succ.
  exact IH.
Qed.

Lemma draw_spec (c : rgba) (ps : list pixel) (img : image) :
  image_wf img →
  (∀ p, p ∈ ps → in_image img p.1 p.2 = true) →
  ∃ img', draw c ps img = Ok img'
    ∧ image_wf img' ∧ img_w img' = img_w img ∧ img_h img' = img_h img
    ∧ ∀ x y, getpixel img' x y
             = if decide ((x, y) ∈ ps) then Ok c else getpixel img x y.
Proof.
  revert img. induction ps as [|p ps IH]; intros img Hwf Hin.
  - exists img. do 4 (split; [done|]). intros x y.
    rewrite decide_False; [done|]. by intros ?%elem_of_nil.
  - unfold draw. cbn [rfor].
    assert (in_image img p.1 p.2 = true) as Hp
      by (apply Hin, elem_of_cons; by left).
    destruct (putpixel img p.1 p.2 c) as [img1|e] eqn:Hput;
      [|unfold putpixel in Hput; by rewrite Hp in Hput].
    cbn [mbind result_bind rbind].
    destruct (putpixel_dims _ _ _ _ _ Hput) as [Hw1 Hh1].
    pose proof (putpixel_wf _ _ _ _ _ Hwf Hput) as Hwf1.
    destruct (IH img1 Hwf1) as (img' & Hrun & Hwf' & Hw' & Hh' & Hget).
    { intros q Hq. rewrite (in_image_dims img img1) by done.
      apply Hin, elem_of_cons. by right. }
    exists img'. split; [exact Hrun|].
    split; [done|]. split; [congruence|]. split; [congruence|].
    intros x y. rewrite Hget, (getpixel_putpixel _ _ _ _ _ x y Hwf Hput).
    destruct (decide ((x, y) ∈ ps)) as [Hps|Hps].
    + rewrite decide_True; [done|]. apply elem_of_cons. by right.
    + destruct (decide (x = p.1 ∧ y = p.2)) as [[-> ->]|Hne].
      * rewrite decide_True; [done|]. apply elem_of_cons. left. by destruct p.
      * rewrite decide_False; [done|].
        intros [<-|?]%elem_of_cons; [|done]. by apply Hne.
Qed.

Lemma StronglySorted_lookup_lt (l : list Z) (i j : nat) (a b : Z) :
  StronglySorted Z.lt l → (i < j)%nat →
  l !! i = Some a → l !! j = Some b → a < b.
Proof.
  intros Hs. revert i j. induction Hs as [|x l Hs IH Hx]; intros i j Hij Hi Hj.
  - by rewrite lookup_nil in Hi.
  - destruct j as [|j]; [lia|]. cbn in Hj. destruct i as [|i].
    + injection Hi as <-. by apply (proj1 (Forall_forall _ _) Hx),
        (list_elem_of_lookup_2 _ j).
    + cbn in Hi. apply (IH i j); [lia|done..].
Qed.

Lemma stage_coverage_256 :
  stage_coverage 256 = [15; 25; 38; 53; 71; 89; 107; 128; 148; 166].
Proof. reflexivity. Qed.

Lemma stage_coverage_sorted : StronglySorted Z.lt (stage_coverage 256).
Proof.
  rewrite stage_coverage_256.
  repeat (apply SSorted_cons; [|repeat (apply Forall_cons_2; [lia|]);
                                 apply Forall_nil_2]).
  apply SSorted_nil.
Qed.

Lemma stage_coverage_lookup (stage : Z) :
  0 ≤ stage < 10 →
  ∃ n, stage_coverage 256 !! Z.to_nat stage = Some n ∧ 0 ≤ n ≤ 256.
Proof.
  intros Hst.
  destruct (lookup_lt_is_Some_2 (stage_coverage 256) (Z.to_nat stage))
    as [n Hn]; [rewrite stage_coverage_256; cbn; lia|].
  exists n. split; [done|].
  assert (Forall (λ n, 0 ≤ n ≤ 256) (stage_coverage 256)) as Hall.
  { rewrite stage_coverage_256.
    repeat (apply Forall_cons_2; [lia|]). apply Forall_nil_2. }
  apply (proj1 (Forall_forall _ _) Hall). by eapply list_elem_of_lookup_2.
Qed.

Lemma crack_alpha_pos stage : 0 ≤ stage → 0 < crack_alpha stage.
Proof. unfold crack_alpha. lia. Qed.

Section Sprites.
Context (pattern : list pixel).
Context (Hnd : NoDup pattern).
Context (Hin : ∀ p, p ∈ pattern ↔ in_grid 16 16 p).
Context (Hlen : length pattern = 256%nat).

Lemma draw_stage_spec (stage : Z) :
  0 ≤ stage < 10 →
  ∃ sprite,
    draw_stage 16 16 pattern (stage_coverage 256) stage = Ok sprite
    ∧ shows_prefix pattern stage sprite.
Proof.
  intros Hst. destruct (stage_coverage_lookup stage Hst) as (n & Hn & Hn256).
  unfold draw_stage.
  assert (item (stage_coverage 256) stage = Ok n) as ->.
  { apply item_lookup; [lia|done]. }
  cbn [mbind result_bind rbind].
  replace (Z.min n (Z.of_nat (length pattern))) with n by lia.
  set (c := (0, 0, 0, crack_alpha stage)).
  set (blank := Image_new 16 16 (0, 0, 0, 0)).
  assert (image_wf blank) as Hwf by (by apply Image_new_wf).
  pose proof (rfor_items [] (take (Z.to_nat n) pattern)
                (drop (Z.to_nat n) pattern) c blank) as Hloop.
  cbn [app length] in Hloop. rewrite take_drop in Hloop.
  rewrite length_take, Hlen in Hloop.
  replace (Z.of_nat (Z.to_nat n `min` 256)) with n in Hloop by lia.
  unfold range. change (Z.of_nat 0) with 0 in Hloop. rewrite Hloop.
  destruct (draw_spec c (take (Z.to_nat n) pattern) blank Hwf)
    as (img & -> & Hwf' & Hw' & Hh' & Hget).
  { intros p Hp. apply subseteq_take, Hin in Hp. destruct Hp as [Hx Hy].
    apply in_image_spec. change (0 ≤ p.1 < 16 ∧ 0 ≤ p.2 < 16). done. }
  cbn [mbind result_bind rbind].
  eexists. split; [done|].
  assert (∀ p, is_crack img p = true ↔ p ∈ take (Z.to_nat n) pattern)
    as Hcrack.
  { intros [x y]. unfold is_crack. cbn [fst snd]. rewrite Hget.
    destruct (decide ((x, y) ∈ take (Z.to_nat n) pattern)) as [Hp|Hp].
    - split; [done|]. intros _. apply Z.ltb_lt.
      change (0 < crack_alpha stage). apply crack_alpha_pos. lia.
    - split; [|done]. unfold getpixel.
      destruct (in_image blank x y); [|done].
      destruct (img_px blank !! offset blank x y) as [px|] eqn:Hpx; [|done].
      apply lookup_replicate in Hpx as [-> _]. done. }
  split; [done|]. split; [exact Hw'|]. split; [exact Hh'|].
  exists n. split; [exact Hn|]. split; [exact Hn256|]. split; [|exact Hcrack].
  unfold actual_opaque, crack_pixels. cbn [snd]. rewrite Hw', Hh'.
  change (img_w blank) with 16. change (img_h blank) with 16.
  assert (filter (λ p, is_crack img p = true) (all_pixels 16 16)
          ≡ₚ take (Z.to_nat n) pattern) as ->.
  { apply NoDup_Permutation.
    - apply NoDup_filter, all_pixels_NoDup.
    - eapply sublist_NoDup; [exact Hnd|apply sublist_take].
    - intros p. rewrite list_elem_of_filter, Hcrack, all_pixels_spec.
      split; [tauto|]. intros Hp. split; [done|].
      by apply Hin, (subseteq_take (Z.to_nat n)). }
  rewrite length_take, Hlen. lia.
Qed.

Lemma stages_run (l : list Z) (acc : list (string * image)) :
  (∀ stage, stage ∈ l → 0 ≤ stage < 10) →
  ∃ sprites,
    rfor l (λ stage sprites',
              sprite ← draw_stage 16 16 pattern (stage_coverage 256) stage;
              Ok (sprites' ++ [sprite])) acc
    = Ok (acc ++ sprites)
    ∧ Forall2 (shows_prefix pattern) l sprites.
Proof.
  revert acc. induction l as [|stage l IH]; intros acc Hl.
  - exists []. split; [by rewrite app_nil_r|apply Forall2_nil_2].
  - destruct (draw_stage_spec stage) as (sprite & Hrun & Hsp);
      [apply Hl, elem_of_cons; by left|].
    destruct (IH (acc ++ [sprite])) as (sprites & Hrest & Hall);
      [intros st Hst; apply Hl, elem_of_cons; by right|].
    exists (sprite :: sprites). split; [|by apply Forall2_cons_2].
    cbn [rfor]. rewrite Hrun. cbn [mbind result_bind rbind].
    rewrite Hrest. by rewrite <- app_assoc.
Qed.

Lemma prefix_strict (n m : Z) :
  0 ≤ n < m → m ≤ 256 →
  (∀ p, p ∈ take (Z.to_nat n) pattern → p ∈ take (Z.to_nat m) pattern)
  ∧ ∃ p, p ∈ take (Z.to_nat m) pattern ∧ p ∉ take (Z.to_nat n) pattern.
Proof.
  intros Hn Hm. split.
  - intros p (i & Hi & Hlt)%elem_of_take.
    apply elem_of_take. exists i. split; [done|lia].
  - destruct (lookup_lt_is_Some_2 pattern (Z.to_nat n)) as [p Hp]; [lia|].
    exists p. split.
    + apply elem_of_take. exists (Z.to_nat n). split; [done|lia].
    + intros (i & Hi & Hlt)%elem_of_take.
      pose proof (NoDup_lookup pattern i (Z.to_nat n) p Hnd Hi Hp). lia.
Qed.

End Sprites.

(** C1.  With a lawful generator, [generate_crack_sprites] saves exactly ten
    sprites, [crack_stage_0.png] to [crack_stage_9.png].  The crack pixels
    (alpha above zero) of the sprite of a stage are the first [n] entries of
    the one ordering returned by [generate_full_crack_pattern 16 16], where
    [n] is the stage's entry of [15, 25, 38, 53, 71, 89, 107, 128, 148, 166]
    (the integer parts of [256 * p] for the ten percentages), and the sprite
    has exactly [n] crack pixels.  For stages [i < j] every crack pixel of
    sprite [i] is a crack pixel of sprite [j], and sprite [j] has a crack
    pixel that sprite [i] lacks. *)
Theorem crack_sprites_progressive {R : PyRandom} (s : rng_state) :
  rng_lawful R →
  ∃ pattern s' sprites,
    generate_full_crack_pattern 16 16 42 s = Ok (pattern, s')
    ∧ generate_crack_sprites s = Ok (sprites, s')
    ∧ length sprites = 10%nat
    ∧ stage_coverage (16 * 16)
      = [15; 25; 38; 53; 71; 89; 107; 128; 148; 166]
    ∧ (∀ stage, 0 ≤ stage < 10 →
         ∃ file img n,
           sprites !! Z.to_nat stage = Some (file, img)
           ∧ file = crack_filename stage
           ∧ stage_coverage (16 * 16) !! Z.to_nat stage = Some n
           ∧ actual_opaque img = n
           ∧ ∀ p, is_crack img p = true ↔ p ∈ take (Z.to_nat n) pattern)
    ∧ (∀ i j si sj,
         (i < j)%nat → sprites !! i = Some si → sprites !! j = Some sj →
         (∀ p, is_crack si.2 p = true → is_crack sj.2 p = true)
         ∧ ∃ p, is_crack sj.2 p = true ∧ is_crack si.2 p = false).
Proof.
  intros Hlaw.
  pose proof (pattern_ok Hlaw 16 16 ltac:(lia) ltac:(lia) 42 s) as Hrun.
  unfold generate_crack_sprites.
  unfold mbind at 1. unfold M_bind, M_then.
  destruct (generate_full_crack_pattern 16 16 42 s)
    as [[pattern s']|e]; [|done].
  destruct Hrun as [Hnd Hin].
  assert (length pattern = 256%nat) as Hlen.
  { assert (pattern ≡ₚ all_pixels 16 16) as ->.
    { apply NoDup_Permutation; [done|apply all_pixels_NoDup|].
      intros p. by rewrite Hin, all_pixels_spec. }
    by rewrite all_pixels_length. }
  destruct (stages_run pattern Hnd Hin Hlen (range 10) [])
    as (sprites & Hsprites & Hall).
  { intros stage Hst%elem_of_seqZ. lia. }
  change (16 * 16) with 256. unfold M_lift. rewrite Hsprites.
  cbn [app]. exists pattern, s', sprites.
  split; [done|]. split; [done|].
  split; [by rewrite <- (Forall2_length _ _ _ Hall)|].
  split; [apply stage_coverage_256|].
  assert (∀ i sp, sprites !! i = Some sp →
                  shows_prefix pattern (Z.of_nat i) sp) as Hshow.
  { intros i sp Hi.
    destruct (Forall2_lookup_r _ _ _ _ _ Hall Hi) as (stage & Hst & Hsp).
    apply lookup_seqZ in Hst as [-> _]. by rewrite Z.add_0_l in Hsp. }
  split.
  - intros stage Hst.
    destruct (Forall2_lookup_l _ (range 10) sprites (Z.to_nat stage) stage
                Hall) as ([file img] & Hi & Hsp).
    { apply lookup_seqZ. lia. }
    destruct Hsp as (Hfile & _ & _ & n & Hn & _ & Hcount & Hcrack).
    exists file, img, n. done.
  - intros i j si sj Hij Hi Hj.
    destruct (Hshow i si Hi) as (_ & _ & _ & ni & Hni & Hni256 & _ & Hci).
    destruct (Hshow j sj Hj) as (_ & _ & _ & nj & Hnj & Hnj256 & _ & Hcj).
    rewrite Nat2Z.id in Hni, Hnj.
    pose proof (StronglySorted_lookup_lt _ i j ni nj stage_coverage_sorted
                  Hij Hni Hnj) as Hlt.
    destruct (prefix_strict pattern Hnd Hlen ni nj) as [Hsub (p & Hp & Hnp)];
      [lia..|].
    split.
    + intros p'. rewrite Hci, Hcj. apply Hsub.
    + exists p. split; [by apply Hcj|].
      destruct (is_crack si.2 p) eqn:Hc; [|done]. by apply Hci in Hc.
Qed.

Lemma crack_sprites_progressive_witness :
  ∃ sprites s',
    generate_crack_sprites (R := lcg_random) 0 = Ok (sprites, s')
    ∧ length sprites = 10%nat.
Proof.
  destruct (crack_sprites_progressive (R := lcg_random) 0 lcg_lawful)
    as (pattern & s' & sprites & _ & Hrun & Hlen & _).
  exists sprites, s'. split; [exact Hrun|exact Hlen].
Defined.

(** ** generate_block_assets.py *)

(** [base_template] has no field named [fileID] to fill: the first
    replacement field that [format] meets in it is [{fileID: 0}], on the line
    of [m_CorrespondingSourceObject], whose braces are not doubled. *)
Lemma format_base_template (b : block) :
  py_format base_template (block_dict b) = Raise KeyError.
Proof. destruct b. vm_compute. reflexivity. Qed.

Lemma IO_bind_run {A B} (m : IO A) (k : A → IO B) (w : world) :
  (x ← m; k x) w
  = match m w with
    | (Ok a, w') => k a w'
    | (Raise e, w') => (Raise e, w')
    end.
Proof. reflexivity. Qed.

(** A round of the loop creates or empties the asset file and stops. *)
Lemma write_block_raises (b : block) (guid : string) (w : world) :
  write_block (b, guid) tt w
  = (Raise KeyError,
     World (<[asset_path_of b := EmptyString]> (files w))
           (events w ++ [OpenWrite (asset_path_of b)])).
Proof.
  unfold write_block. rewrite IO_bind_run. cbn [open_write].
  rewrite IO_bind_run. unfold IO_lift. by rewrite format_base_template.
Qed.

(** C6.  The script does not write the 18 asset files and 18 meta files.
    [base_template.format] raises [KeyError] for every block record, because
    four lines of the template hold [{fileID: 0}] with single braces.  So the
    run ends in the first round of the loop, for the block Water: the file
    [Block_Water.asset] has been opened for writing and is left empty, no
    meta file is written and the closing message is not printed. *)
Theorem generate_block_assets_raises (w : world) :
  (∀ b, b ∈ blocks →
        py_format base_template (block_dict b) = Raise KeyError)
  ∧ length blocks = 18%nat ∧ length guids = 18%nat
  ∧ generate_block_assets w
    = (Raise KeyError,
       World (<["/Users/ljs0218/VoxelEngine/Assets/_Project/Data/Blocks/Block_Water.asset"
                := EmptyString]> (files w))
             (events w
              ++ [OpenWrite "/Users/ljs0218/VoxelEngine/Assets/_Project/Data/Blocks/Block_Water.asset"])).
Proof.
  split; [intros b _; apply format_base_template|].
  split; [reflexivity|]. split; [reflexivity|].
  unfold generate_block_assets. rewrite IO_bind_run.
  unfold blocks, guids. cbn [zip zip_with iofor].
  rewrite IO_bind_run, write_block_raises. reflexivity.
Qed.

(** ** update_block_registry.py *)

Lemma slice_assign_middle {A} (pre : list A) (d : A) (rest new : list A) :
  slice_assign (pre ++ d :: rest) (length pre + 1) (length pre + 8) new
  = pre ++ d :: new ++ drop 7 rest.
Proof.
  unfold slice_assign.
  replace (Nat.max (length pre + 1) (length pre + 8))
    with (length (pre ++ [d]) + 7)%nat by (rewrite length_app; cbn; lia).
  replace (length pre + 1)%nat with (length (pre ++ [d]))
    by (rewrite length_app; cbn; lia).
  rewrite (cons_middle d pre rest), (app_assoc pre [d] rest).
  rewrite take_app_length, drop_app_add.
  by rewrite <- app_assoc.
Qed.

(** The loop passes the lines that are no [definitions:] line and stops at
    the first one that is. *)
Lemma definitions_loop_finds (seen pre : list string) (d : string)
    (rest lines : list string) :
  Forall (λ line, strip line ≠ "definitions:") pre →
  strip d = "definitions:" →
  definitions_loop (length seen) (pre ++ d :: rest) lines
  = slice_assign lines (length seen + length pre + 1)
                 (length seen + length pre + 8)
                 (definition_line <$> all_guids).
Proof.
  intros Hpre Hd. revert seen.
  induction Hpre as [|line pre Hline Hpre IH]; intros seen.
  - cbn [app definitions_loop length]. rewrite Hd.
    change ("definitions:" =? "definitions:")%string with true.
    cbn match. f_equal; lia.
  - cbn [app definitions_loop].
    destruct (String.eqb_spec (strip line) "definitions:") as [Heq|_];
      [done|].
    specialize (IH (seen ++ [line])). rewrite length_app in IH.
    cbn [length] in IH.
    replace (S (length seen)) with (length seen + 1)%nat by lia.
    rewrite IH. cbn [length]. f_equal; lia.
Qed.

Lemma definitions_loop_misses (i : nat) (todo lines : list string) :
  Forall (λ line, strip line ≠ "definitions:") todo →
  definitions_loop i todo lines = lines.
Proof.
  intros Htodo. revert i.
  induction Htodo as [|line todo Hline Htodo IH]; intros i; [done|].
  cbn [definitions_loop].
  destruct (String.eqb_spec (strip line) "definitions:") as [Heq|_];
    [done|apply IH].
Qed.

Lemma replace_definitions_found (pre : list string) (d : string)
    (rest : list string) :
  Forall (λ line, strip line ≠ "definitions:") pre →
  strip d = "definitions:" →
  replace_definitions (pre ++ d :: rest)
  = pre ++ d :: (definition_line <$> all_guids) ++ drop 7 rest.
Proof.
  intros Hpre Hd. unfold replace_definitions.
  rewrite (definitions_loop_finds [] pre d rest _ Hpre Hd).
  cbn [length]. rewrite !Nat.add_0_l. apply slice_assign_middle.
Qed.

Lemma update_block_registry_run (w : world) (text : string) :
  files w !! scene_path = Some text →
  update_block_registry w
  = (Ok tt,
     World (<[scene_path := joinlines (replace_definitions (readlines text))]>
              (files w))
           (events w
            ++ [OpenRead scene_path; OpenWrite scene_path;
                Print "Updated SampleScene.unity with new block definitions."])).
Proof.
  intros Htext. unfold update_block_registry.
  rewrite IO_bind_run. unfold read_text. rewrite Htext.
  cbn zeta. rewrite IO_bind_run. cbn [open_write log files events].
  rewrite IO_bind_run. cbn [fwrite files events].
  rewrite lookup_insert_eq. cbn [default]. rewrite insert_insert_eq.
  unfold print, log. cbn [files events].
  by rewrite <- !app_assoc.
Qed.

(** C7.  Let the scene file hold the lines [pre], then the first line [d]
    whose stripped form is [definitions:], then [rest].  The script writes
    back [pre] and [d] as they were, then the 25 lines
    [  - {fileID: 11400000, guid: <g>, type: 2}] for the 7 existing and the
    18 new GUIDs in the order of the tables, then [rest] without its first 7
    lines.  Nothing after these 7 lines is touched, also not a later
    [definitions:] line. *)
Theorem definitions_replaced (pre : list string) (d : string)
    (rest : list string) (w : world) (text : string) :
  Forall (λ line, strip line ≠ "definitions:") pre →
  strip d = "definitions:" →
  files w !! scene_path = Some text →
  readlines text = pre ++ d :: rest →
  replace_definitions (pre ++ d :: rest)
  = pre ++ d :: (definition_line <$> existing_guids)
        ++ (definition_line <$> new_block_guids) ++ drop 7 rest
  ∧ length existing_guids = 7%nat ∧ length new_block_guids = 18%nat
  ∧ length (definition_line <$> all_guids) = 25%nat
  ∧ (∀ g, definition_line g
          = "  - {fileID: 11400000, guid: " +:+ g +:+ ", type: 2}" +:+ nl)
  ∧ update_block_registry w
    = (Ok tt,
       World (<[scene_path
                := joinlines (pre ++ d :: (definition_line <$> all_guids)
                                  ++ drop 7 rest)]> (files w))
             (events w
              ++ [OpenRead scene_path; OpenWrite scene_path;
                  Print "Updated SampleScene.unity with new block definitions."])).
Proof.
  intros Hpre Hd Htext Hlines.
  pose proof (replace_definitions_found pre d rest Hpre Hd) as Hrep.
  split.
  { rewrite Hrep. unfold all_guids. by rewrite fmap_app, <- app_assoc. }
  split; [reflexivity|]. split; [reflexivity|]. split; [reflexivity|].
  split; [done|].
  by rewrite (update_block_registry_run w text Htext), Hlines, Hrep.
Qed.

Lemma definitions_replaced_witness :
  let pre := ["scene:" +:+ nl] in
  let d := "  definitions:" +:+ nl in
  let rest := ["  - old" +:+ nl; "after:" +:+ nl] in
  replace_definitions (pre ++ d :: rest)
  = pre ++ d :: (definition_line <$> existing_guids)
        ++ (definition_line <$> new_block_guids) ++ drop 7 rest.
Proof.
  intros pre d rest.
  refine (proj1 (definitions_replaced pre d rest
                   (World {[scene_path := joinlines (pre ++ d :: rest)]} [])
                   (joinlines (pre ++ d :: rest)) _ _ _ _)).
  - repeat constructor. vm_compute. discriminate.
  - vm_compute. reflexivity.
  - apply lookup_singleton_eq.
  - vm_compute. reflexivity.
Defined.

(** ** Tools/assign_textures.py: the blocks that [update_asset] skips *)

Lemma skip_asset_run (msg : string) (w : world) :
  skip_asset msg w = (Ok false, World (files w) (events w ++ [Print msg])).
Proof. reflexivity. Qed.

Lemma BLOCK_TILE_MAP_Air : BLOCK_TILE_MAP !! "Block_Air" = Some (0, 0, 0).
Proof. vm_compute. reflexivity. Qed.

(** C2.  A block that is not in [BLOCK_TILE_MAP], the block [Block_Air], and
    a block one of whose three tile indices has no entry in the GUID map are
    skipped: [update_asset] returns [False] and its whole effect is one
    printed line, a [SKIP] or an [ERROR] message.  The files are what they
    were, and nothing is opened, for reading or for writing. *)
Theorem update_asset_skips (asset_path block_name : string)
    (guid_map : gmap Z string) (w : world) :
  BLOCK_TILE_MAP !! block_name = None
  ∨ block_name = "Block_Air"
  ∨ (∃ top side bottom,
       BLOCK_TILE_MAP !! block_name = Some (top, side, bottom)
       ∧ (guid_map !! top = None ∨ guid_map !! side = None
          ∨ guid_map !! bottom = None)) →
  ∃ msg,
    update_asset asset_path block_name guid_map w
    = (Ok false, World (files w) (events w ++ [Print msg]))
    ∧ (msg = "  SKIP: " +:+ block_name +:+ " not in tile map"
       ∨ msg = "  SKIP: " +:+ block_name +:+ " (Air, no textures)"
       ∨ ∃ top side bottom,
           BLOCK_TILE_MAP !! block_name = Some (top, side, bottom)
           ∧ msg = "  ERROR: Missing GUID for " +:+ block_name
                   +:+ " (top=" +:+ pretty top
                   +:+ ", side=" +:+ pretty side
                   +:+ ", bottom=" +:+ pretty bottom +:+ ")").
Proof.
  intros [Hnone|[->|(top & side & bottom & Hmap & Hmiss)]].
  - unfold update_asset. rewrite Hnone, skip_asset_run.
    eexists. split; [reflexivity|]. by left.
  - unfold update_asset. rewrite BLOCK_TILE_MAP_Air.
    change ("Block_Air" =? "Block_Air")%string with true. cbn match.
    rewrite skip_asset_run. eexists. split; [reflexivity|]. right. by left.
  - unfold update_asset. rewrite Hmap.
    destruct (block_name =? "Block_Air")%string.
    { rewrite skip_asset_run. eexists. split; [reflexivity|]. right. by left. }
    cbn zeta.
    assert (truthy (guid_map !! top) && truthy (guid_map !! side)
            && truthy (guid_map !! bottom) = false) as ->.
    { destruct Hmiss as [-> | [-> | ->]]; cbn [truthy];
        rewrite ?andb_false_r; done. }
    cbn [negb]. rewrite skip_asset_run. eexists. split; [reflexivity|].
    right. right. by exists top, side, bottom.
Qed.

Lemma update_asset_skips_witness :
  ∃ msg,
    update_asset "Block_Stone.asset" "Block_Stone" {[1 := "ab"]}
      (World {["Block_Stone.asset" := "topTexture: {fileID: 0}"]} [])
    = (Ok false,
       World {["Block_Stone.asset" := "topTexture: {fileID: 0}"]}
             [Print msg]).
Proof.
  destruct (update_asset_skips "Block_Stone.asset" "Block_Stone" {[1 := "ab"]}
              (World {["Block_Stone.asset" := "topTexture: {fileID: 0}"]} []))
    as (msg & Hrun & _).
  - right. right. exists 3, 3, 3. split; [vm_compute; reflexivity|].
    left. vm_compute. reflexivity.
  - exists msg. exact Hrun.
Defined.

(** ** Tools/assign_textures.py: reading a GUID *)

Lemma strip_prefix_spec (p s r : string) :
  strip_prefix p s = Some r ↔ s = p +:+ r.
Proof.
  revert s. induction p as [|a p IH]; intros s; cbn.
  - split; [by intros [= ->]|by intros ->].
  - destruct s as [|b s]; [done|].
    destruct (Ascii.eqb_spec a b) as [->|Hne].
    + rewrite IH. split; [by intros ->|by intros [= ->]].
    + split; [done|]. intros [= -> _]. done.
Qed.

Lemma split_go_hit (a : ascii) (sep cur s rest : string) :
  strip_prefix (String a sep) s = Some rest →
  split_go a sep cur s = cur :: split_go a sep EmptyString rest.
Proof.
  intros Hs. destruct s as [|c s']; [done|].
  simp split_go.
  generalize (inspect (strip_prefix (String a sep) (String c s'))).
  intros [[r|] Hr]; simp split_go; congruence.
Qed.

Lemma split_go_miss (a : ascii) (sep cur : string) (c : ascii) (s' : string) :
  strip_prefix (String a sep) (String c s') = None →
  split_go a sep cur (String c s')
  = split_go a sep (cur +:+ String c EmptyString) s'.
Proof.
  intros Hs. simp split_go.
  generalize (inspect (strip_prefix (String a sep) (String c s'))).
  intros [[r|] Hr]; simp split_go; congruence.
Qed.

Lemma append_assoc (s1 s2 s3 : string) :
  (s1 +:+ s2) +:+ s3 = s1 +:+ (s2 +:+ s3).
Proof.
  induction s1 as [|c s1 IH]; [done|].
  change (String c ((s1 +:+ s2) +:+ s3) = String c (s1 +:+ s2 +:+ s3)).
  by f_equal.
Qed.

Lemma append_nil_l (s : string) : EmptyString +:+ s = s.
Proof. reflexivity. Qed.

Lemma append_nil_r (s : string) : s +:+ EmptyString = s.
Proof.
  induction s as [|c s IH]; [done|].
  change (String c (s +:+ EmptyString) = String c s). by f_equal.
Qed.

(** A text without the separator is one piece. *)
Lemma split_go_whole (a : ascii) (sep cur s : string) :
  contains (String a sep) s = false →
  split_go a sep cur s = [cur +:+ s].
Proof.
  revert cur. induction s as [|c s IH]; intros cur Hs.
  - simp split_go. by rewrite append_nil_r.
  - cbn [contains] in Hs. apply orb_false_elim in Hs as [Hhere Hlater].
    unfold startswith in Hhere.
    destruct (strip_prefix (String a sep) (String c s)) eqn:Hp; [done|].
    rewrite (split_go_miss _ _ _ _ _ Hp), (IH _ Hlater).
    by rewrite append_assoc.
Qed.

(** The first piece of a split and what follows it in the text. *)
Lemma split_go_first (a : ascii) (sep cur s : string) :
  ∃ piece pieces,
    split_go a sep cur s = (cur +:+ piece) :: pieces
    ∧ (s = piece ∨ ∃ tail, s = piece +:+ String a sep +:+ tail).
Proof.
  revert cur. induction s as [|c s IH]; intros cur.
  - exists EmptyString, []. simp split_go. rewrite append_nil_r.
    split; [done|by left].
  - destruct (strip_prefix (String a sep) (String c s)) as [rest|] eqn:Hp.
    + exists EmptyString, (split_go a sep EmptyString rest).
      rewrite (split_go_hit _ _ _ _ _ Hp), append_nil_r. split; [done|].
      right. exists rest. by apply strip_prefix_spec in Hp.
    + destruct (IH (cur +:+ String c EmptyString))
        as (piece & pieces & Hrun & Hs).
      exists (String c piece), pieces.
      rewrite (split_go_miss _ _ _ _ _ Hp), Hrun, append_assoc.
      split; [done|]. destruct Hs as [->|[tail ->]]; [by left|].
      right. by exists tail.
Qed.

Lemma is_guid_line_spec (line : string) :
  is_guid_line line = true ↔ ∃ rest, strip line = "guid:" +:+ rest.
Proof.
  unfold is_guid_line, startswith.
  destruct (strip_prefix "guid:" (strip line)) as [rest|] eqn:Hp.
  - split; [|done]. intros _. exists rest. by apply strip_prefix_spec.
  - split; [done|]. intros [rest Hrest%strip_prefix_spec]. congruence.
Qed.

(** What [line.strip().split("guid:")[1].strip()] is on a GUID line. *)
Lemma guid_of_line_spec (line rest : string) :
  strip line = "guid:" +:+ rest →
  ∃ piece pieces,
    py_split rest "guid:" = Ok (piece :: pieces)
    ∧ guid_of_line line = Ok (strip piece)
    ∧ (rest = piece ∨ ∃ tail, rest = piece +:+ "guid:" +:+ tail)
    ∧ (contains "guid:" rest = false → piece = rest).
Proof.
  intros Hline.
  destruct (split_go_first "g" "uid:" EmptyString rest)
    as (piece & pieces & Hrun & Hrest).
  rewrite append_nil_l in Hrun.
  exists piece, pieces. unfold guid_of_line, py_split. rewrite Hline.
  split; [by rewrite Hrun|]. split; [|split; [exact Hrest|]].
  - rewrite (split_go_hit "g" "uid:" EmptyString _ rest)
      by (by apply strip_prefix_spec).
    rewrite Hrun. reflexivity.
  - intros Hno. rewrite (split_go_whole _ _ _ _ Hno) in Hrun.
    rewrite !append_nil_l in Hrun. congruence.
Qed.

Lemma scan_meta_found (pre : list string) (line : string)
    (post : list string) :
  Forall (λ l, is_guid_line l = false) pre →
  is_guid_line line = true →
  scan_meta (pre ++ line :: post) = guid_of_line line.
Proof.
  intros Hpre Hline. induction Hpre as [|l pre Hl Hpre IH]; cbn.
  - by rewrite Hline.
  - by rewrite Hl.
Qed.

Lemma scan_meta_none (lines : list string) :
  Forall (λ l, is_guid_line l = false) lines →
  scan_meta lines = Raise ValueError.
Proof.
  intros Hlines. induction Hlines as [|l lines Hl Hlines IH]; cbn; [done|].
  by rewrite Hl.
Qed.

(** Either no line is a GUID line, or there is a first one. *)
Lemma first_guid_line (lines : list string) :
  Forall (λ l, is_guid_line l = false) lines
  ∨ ∃ pre line post,
      lines = pre ++ line :: post
      ∧ Forall (λ l, is_guid_line l = false) pre
      ∧ is_guid_line line = true.
Proof.
  induction lines as [|l lines IH]; [left; constructor|].
  destruct (is_guid_line l) eqn:Hl.
  - right. exists [], l, lines. split; [done|]. split; [constructor|done].
  - destruct IH as [Hnone|(pre & line & post & -> & Hpre & Hline)].
    + left. by constructor.
    + right. exists (l :: pre), line, post.
      split; [done|]. split; [by constructor|done].
Qed.

Lemma get_guid_from_meta_run (texture_path : string) (w : world) :
  get_guid_from_meta texture_path w
  = match files w !! (texture_path +:+ ".meta") with
    | None => (Raise FileNotFoundError, w)
    | Some text =>
        (scan_meta (readlines text),
         World (files w)
               (events w ++ [OpenRead (texture_path +:+ ".meta")]))
    end.
Proof.
  unfold get_guid_from_meta. cbn zeta. rewrite IO_bind_run.
  unfold path_exists, read_text.
  destruct (files w !! (texture_path +:+ ".meta")) as [text|] eqn:Hf.
  - rewrite bool_decide_eq_true_2 by done. cbn [negb].
    rewrite IO_bind_run, Hf. reflexivity.
  - rewrite bool_decide_eq_false_2 by (by intros [? [=]]). reflexivity.
Qed.

(** C3, as the code has it.  [get_guid_from_meta] raises [FileNotFoundError]
    exactly when the [.meta] file does not exist, and [ValueError] exactly
    when it exists and no line of it, stripped, starts with [guid:]; it
    changes no file.  Otherwise let [rest] be what follows [guid:] on the
    first such line, stripped: the function returns the stripped first piece
    of [rest.split("guid:")], which is the text up to the next [guid:] in
    [rest], and the stripped [rest] itself when [rest] holds no further
    [guid:]. *)
Theorem get_guid_from_meta_spec (texture_path : string) (w : world) :
  let meta_path := texture_path +:+ ".meta" in
  let r := get_guid_from_meta texture_path w in
  (r.1 = Raise FileNotFoundError ↔ files w !! meta_path = None)
  ∧ (r.1 = Raise ValueError
     ↔ ∃ text, files w !! meta_path = Some text
               ∧ Forall (λ l, is_guid_line l = false) (readlines text))
  ∧ (∀ text pre line post,
       files w !! meta_path = Some text →
       readlines text = pre ++ line :: post →
       Forall (λ l, is_guid_line l = false) pre →
       is_guid_line line = true →
       ∃ rest piece pieces,
         strip line = "guid:" +:+ rest
         ∧ py_split rest "guid:" = Ok (piece :: pieces)
         ∧ r.1 = Ok (strip piece)
         ∧ (rest = piece ∨ ∃ tail, rest = piece +:+ "guid:" +:+ tail)
         ∧ (contains "guid:" rest = false → r.1 = Ok (strip rest)))
  ∧ files r.2 = files w.
Proof.
  intros meta_path r. subst r. rewrite get_guid_from_meta_run.
  fold meta_path.
  destruct (files w !! meta_path) as [text|] eqn:Hf; cbn [fst snd files].
  - assert (scan_meta (readlines text) = Raise ValueError
            ↔ Forall (λ l, is_guid_line l = false) (readlines text)) as Hval.
    { split; [|apply scan_meta_none].
      destruct (first_guid_line (readlines text))
        as [Hnone|(pre & line & post & Hlines & Hpre & Hline)]; [done|].
      rewrite Hlines, (scan_meta_found _ _ _ Hpre Hline).
      destruct (proj1 (is_guid_line_spec line) Hline) as [rest Hrest].
      destruct (guid_of_line_spec line rest Hrest)
        as (piece & pieces & _ & -> & _). done. }
    split; [|split; [|split; [|done]]].
    + split; [|done]. intros Hfnf.
      destruct (first_guid_line (readlines text))
        as [Hnone|(pre & line & post & Hlines & Hpre & Hline)].
      * by rewrite (scan_meta_none _ Hnone) in Hfnf.
      * rewrite Hlines, (scan_meta_found _ _ _ Hpre Hline) in Hfnf.
        destruct (proj1 (is_guid_line_spec line) Hline) as [rest Hrest].
        destruct (guid_of_line_spec line rest Hrest)
          as (piece & pieces & _ & Hg & _). by rewrite Hg in Hfnf.
    + rewrite Hval. split; [intros Hnone; by exists text|].
      by intros (text' & [= <-] & Hnone).
    + intros text' pre line post [= <-] Hlines Hpre Hline.
      rewrite Hlines, (scan_meta_found _ _ _ Hpre Hline).
      destruct (proj1 (is_guid_line_spec line) Hline) as [rest Hrest].
      destruct (guid_of_line_spec line rest Hrest)
        as (piece & pieces & Hsplit & Hg & Hjoin & Hwhole).
      exists rest, piece, pieces. rewrite Hg.
      split; [done|]. split; [done|]. split; [done|]. split; [done|].
      intros Hno. by rewrite (Hwhole Hno).
  - split; [done|]. split; [|split; [|done]].
    + split; [done|]. by intros (text & [=] & _).
    + by intros text pre line post [=].
Qed.

Lemma get_guid_from_meta_spec_witness :
  (get_guid_from_meta "tile_3_stone.png"
     (World {["tile_3_stone.png.meta"
              := "fileFormatVersion: 2" +:+ nl
                 +:+ "guid: 0fed08878a38d04459f1f2881b12ea1e" +:+ nl]} [])).1
  = Ok "0fed08878a38d04459f1f2881b12ea1e".
Proof.
  destruct (get_guid_from_meta_spec "tile_3_stone.png"
              (World {["tile_3_stone.png.meta"
                       := "fileFormatVersion: 2" +:+ nl
                          +:+ "guid: 0fed08878a38d04459f1f2881b12ea1e"
                          +:+ nl]} []))
    as (_ & _ & Hret & _).
  destruct (Hret ("fileFormatVersion: 2" +:+ nl
                  +:+ "guid: 0fed08878a38d04459f1f2881b12ea1e" +:+ nl)
              ["fileFormatVersion: 2" +:+ nl]
              ("guid: 0fed08878a38d04459f1f2881b12ea1e" +:+ nl) [])
    as (rest & piece & pieces & Hrest & _ & _ & _ & Hwhole).
  - apply lookup_singleton_eq.
  - vm_compute. reflexivity.
  - repeat constructor.
  - vm_compute. reflexivity.
  - assert (rest = " 0fed08878a38d04459f1f2881b12ea1e") as ->.
    { apply strip_prefix_spec in Hrest. vm_compute in Hrest. congruence. }
    rewrite Hwhole; vm_compute; reflexivity.
Defined.

(** C3 as it is written fails on a line that holds [guid:] twice: what the
    function returns is not the stripped text after [guid:]. *)
Lemma get_guid_from_meta_counterexample :
  let w := World {["t.png.meta" := "guid: a guid: b" +:+ nl]} [] in
  readlines ("guid: a guid: b" +:+ nl) = ["guid: a guid: b" +:+ nl]
  ∧ strip ("guid: a guid: b" +:+ nl) = "guid:" +:+ " a guid: b"
  ∧ (get_guid_from_meta "t.png" w).1 = Ok "a"
  ∧ (get_guid_from_meta "t.png" w).1 ≠ Ok (strip " a guid: b").
Proof.
  intros w. split; [vm_compute; reflexivity|].
  split; [vm_compute; reflexivity|].
  assert ((get_guid_from_meta "t.png" w).1 = Ok "a") as Hrun.
  { vm_compute. reflexivity. }
  split; [exact Hrun|]. rewrite Hrun. vm_compute. congruence.
Qed.
